(** * Online-talk: presence, message relay and call signaling

    A shallow embedding of the Socket.IO relay of [src/server.ts] and of the
    client-side call component of [src/app/components/chat/video-chat.tsx],
    followed by the properties of the specification that were checked
    against them.  The listeners of the chat page, the helpers of the socket
    module and the members route
    ([src/app/api/rooms/[roomId]/members/route.ts]) are embedded as well,
    with properties of their own and of their interplay with the relay.

    Conventions.
    - Identifiers (socket ids, user ids, room ids) are strings, as in the
      source.
    - [onlineUsers : Map<string, Set<string>>] and
      [userSockets : Map<string, string>] are finite maps.  The only
      iteration over [onlineUsers] (the disconnect handler) emits, for every
      visited room, the same event with the same payload, so the visiting
      order of the JS [Map] cannot be observed by a client; the model visits
      rooms in key order.
    - The Socket.IO adapter is the map [sids] from a connected socket to the
      rooms it is in.  A socket is in the room named by its own id from the
      moment it connects, and has left every room when its [disconnect]
      handlers run.
    - Prisma is an interface ([Storage]); a call that throws returns [None].
    - The objects the component uses as dictionaries ([peers], [streams])
      are finite maps; a key that names a property inherited from
      [Object.prototype] is outside the model.
    - The relay handles one event at a time, and a handler that awaits
      storage gives way to other events until storage answers.  [join-room]
      writes the presence maps before its [await] and reads them again
      after it, so it is two events: the message itself, and the answer of
      [findMany] ([RosterAnswer]); the query is evaluated when it answers.
      [send-message] touches the relay only after its [await], so it is one
      event, at the time storage answers.  The [await]s of a handler of the
      component are collapsed. *)

From stdpp Require Import gmap strings pretty list fin_maps.

Open Scope string_scope.
Open Scope list_scope.

(** ** JavaScript values carried by events *)

#[local] Unset Elimination Schemes.
Inductive JsValue : Type :=
  | JUndefined
  | JNull
  | JBool (b : bool)
  | JString (s : string)
  | JArray (items : list JsValue)
  | JObject (fields : list (string * JsValue)).
#[local] Set Elimination Schemes.

(** Property access [o.k]: [undefined] when the property is missing or the
    value is not an object literal. *)
Fixpoint lookup_field (k : string) (fields : list (string * JsValue)) : JsValue :=
  match fields with
  | [] => JUndefined
  | (k', v) :: rest => if decide (k' = k) then v else lookup_field k rest
  end.

Definition get_field (k : string) (v : JsValue) : JsValue :=
  match v with
  | JObject fields => lookup_field k fields
  | _ => JUndefined
  end.

Definition field_names (v : JsValue) : list string :=
  match v with
  | JObject fields => fields.*1
  | _ => []
  end.

(** [string | null] columns. *)
Definition js_nullable (o : option string) : JsValue :=
  match o with
  | Some s => JString s
  | None => JNull
  end.

(** ** Messages from a client to the relay *)

(** The object a client passes to [send-message]; [type] and [imageUrl] may
    be left out. *)
Record SendMessageData : Type := {
  smd_roomId : string;
  smd_message : string;
  smd_userId : string;
  smd_type : option string;
  smd_imageUrl : option string;
}.

(** The three signaling events share one shape:
    [{ roomId, userId, targetUserId, <offer | answer | candidate> }].  The
    sender fills [roomId] and [userId] from its props and [targetUserId]
    with the [userId] field of the packet it reacts to. *)
Record SignalData : Type := {
  sd_roomId : string;
  sd_userId : string;
  sd_targetUserId : JsValue;
  sd_body : JsValue;
}.

Inductive SignalKind : Type := Offer | Answer | Candidate.

Definition signal_event (k : SignalKind) : string :=
  match k with
  | Offer => "video-offer"
  | Answer => "video-answer"
  | Candidate => "ice-candidate"
  end.

Definition signal_field (k : SignalKind) : string :=
  match k with
  | Offer => "offer"
  | Answer => "answer"
  | Candidate => "candidate"
  end.

Inductive ClientMsg : Type :=
  | Identify (userId : string)
  | JoinRoom (roomId : string)
  | LeaveRoom (roomId : string)
  | SendMessage (data : SendMessageData)
  | MessageUpdated (roomId messageId content : string)
  | MessageDeleted (roomId messageId : string)
  | JoinVideoChat (roomId userId : string) (isAudioOnly : bool)
  | LeaveVideoChat (roomId userId : string)
  | Signal (k : SignalKind) (data : SignalData).

(** ** The storage collaborator *)

Record User : Type := {
  user_id : string;
  user_name : option string;
  user_email : option string;
}.

(** A [roomMember] row with its [user] included. *)
Record RoomMember : Type := {
  rm_roomId : string;
  rm_user : User;
}.

(** The [data] argument of [prisma.message.create]. *)
Record MessageCreateInput : Type := {
  mc_content : string;
  mc_type : string;
  mc_imageUrl : option string;
  mc_roomId : string;
  mc_userId : string;
}.

Class Storage (DB : Type) : Type := {
  (** [prisma.roomMember.findMany({ where: { roomId }, include: { user } })] *)
  roomMember_findMany : DB → string → option (list RoomMember);
  (** [prisma.message.create({ data, include: { user } })]: the stored record
      and the database after the insertion. *)
  message_create : DB → MessageCreateInput → option (JsValue * DB);
}.

(** The durable roster of a room, as storage reports it. *)
Definition in_roster `{Storage DB} (db : DB) (roomId userId : string) : Prop :=
  ∃ members, roomMember_findMany db roomId = Some members
             ∧ userId ∈ (user_id ∘ rm_user) <$> members.

(** ** The relay ([src/server.ts]) *)

Module Server.

Inductive Target : Type :=
  | ToAll                                 (* io.emit *)
  | ToRoom (room : string)                (* io.to(room).emit *)
  | ToOthers (room : string) (sid : string) (* socket.to(room).emit *)
  | ToSocket (sid : string).              (* socket.emit *)

Global Instance Target_eq_dec : EqDecision Target.
Proof. solve_decision. Defined.

Record Emission : Type := Emit {
  em_target : Target;
  em_event : string;
  em_payload : JsValue;
}.

Record State (DB : Type) : Type := mkState {
  onlineUsers : gmap string (gset string);   (* roomId -> Set<userId> *)
  userSockets : gmap string string;          (* socketId -> userId *)
  sids : gmap string (gset string);          (* socketId -> rooms (adapter) *)
  db : DB;
}.
Arguments mkState {DB} _ _ _ _.
Arguments onlineUsers {DB} _.
Arguments userSockets {DB} _.
Arguments sids {DB} _.
Arguments db {DB} _.

Section Handlers.
Context {DB : Type} {storage : Storage DB}.

Definition init (d : DB) : State DB := mkState ∅ ∅ ∅ d.

Definition set_onlineUsers (ou : gmap string (gset string)) (s : State DB) : State DB :=
  mkState ou (userSockets s) (sids s) (db s).
Definition set_userSockets (us : gmap string string) (s : State DB) : State DB :=
  mkState (onlineUsers s) us (sids s) (db s).
Definition set_sids (r : gmap string (gset string)) (s : State DB) : State DB :=
  mkState (onlineUsers s) (userSockets s) r (db s).
Definition set_db (d : DB) (s : State DB) : State DB :=
  mkState (onlineUsers s) (userSockets s) (sids s) d.

(** The presence set of a room; a room without a record has nobody. *)
Definition presence (s : State DB) (roomId : string) : gset string :=
  default ∅ (onlineUsers s !! roomId).

(** [socket.join(room)] and [socket.leave(room)]. *)
Definition socket_join (sid room : string) (s : State DB) : State DB :=
  set_sids (alter (λ rs, rs ∪ {[room]}) sid (sids s)) s.
Definition socket_leave (sid room : string) (s : State DB) : State DB :=
  set_sids (alter (λ rs, rs ∖ {[room]}) sid (sids s)) s.

Definition joined (s : State DB) (sid room : string) : Prop :=
  ∃ rs, sids s !! sid = Some rs ∧ room ∈ rs.

Definition in_room (room : string) (entry : string * gset string) : Prop :=
  room ∈ entry.2.

Global Instance in_room_dec room entry : Decision (in_room room entry).
Proof. unfold in_room. apply _. Defined.

(** The connections a packet sent to [t] reaches. *)
Definition receivers (s : State DB) (t : Target) : gset string :=
  match t with
  | ToAll => dom (sids s)
  | ToRoom room => dom (filter (in_room room) (sids s))
  | ToOthers room sid => dom (filter (in_room room) (sids s)) ∖ {[sid]}
  | ToSocket sid => {[sid]} ∩ dom (sids s)
  end.

(** What a connection receives of a list of emissions. *)
Definition delivered (s : State DB) (sid : string) (out : list Emission) : list Emission :=
  filter (λ em, sid ∈ receivers s (em_target em)) out.

(** [const userId = userSockets.get(socket.id); if (!userId) ...]: the
    binding is usable when it exists and is not the empty string. *)
Definition bound_identity (s : State DB) (sid : string) : option string :=
  match userSockets s !! sid with
  | Some userId => if decide (userId = "") then None else Some userId
  | None => None
  end.

(** [socket.on("identify")] *)
Definition on_identify (sid userId : string) (s : State DB) : State DB * list Emission :=
  (set_userSockets (<[sid := userId]> (userSockets s)) s,
   [Emit ToAll "user_online" (JString userId)]).

(** [{ ...member.user, online: onlineUsers.get(roomId)?.has(member.user.id) || false }] *)
Definition member_status (ou : gmap string (gset string)) (roomId : string)
    (member : RoomMember) : JsValue :=
  let u := rm_user member in
  JObject [("id", JString (user_id u));
           ("name", js_nullable (user_name u));
           ("email", js_nullable (user_email u));
           ("online", JBool (bool_decide (user_id u ∈ default ∅ (ou !! roomId))))].

(** The presence part of [join-room]:
    [if (!onlineUsers.has(roomId)) onlineUsers.set(roomId, new Set());
     onlineUsers.get(roomId)?.add(userId);] *)
Definition presence_join (roomId userId : string)
    (ou : gmap string (gset string)) : gmap string (gset string) :=
  let ou1 := match ou !! roomId with
             | Some _ => ou
             | None => <[roomId := ∅]> ou
             end in
  alter (λ users, users ∪ {[userId]}) roomId ou1.

(** [socket.on("join-room")], up to [await prisma.roomMember.findMany]: the
    guard, [socket.join] and the presence part.  Nothing is sent yet. *)
Definition on_join_room (sid roomId : string) (s : State DB) : State DB * list Emission :=
  match bound_identity s sid with
  | None => (s, [])
  | Some userId =>
      let s1 := socket_join sid roomId s in
      (set_onlineUsers (presence_join roomId userId (onlineUsers s1)) s1, [])
  end.

(** [socket.on("join-room")], from the answer of [findMany] on: the
    snapshot is built from the [onlineUsers] of that moment and sent to
    whoever is in the room then; a query that throws is logged.  The rest
    of the handler uses [roomId] only. *)
Definition on_join_room_answer (roomId : string) (s : State DB) : State DB * list Emission :=
  match roomMember_findMany (db s) roomId with
  | Some roomMembers =>
      (s, [Emit (ToRoom roomId) "room_members_update"
             (JArray (member_status (onlineUsers s) roomId <$> roomMembers))])
  | None => (s, [])
  end.

(** The presence part of [leave-room]:
    [onlineUsers.get(roomId)?.delete(userId);
     if (onlineUsers.get(roomId)?.size === 0) onlineUsers.delete(roomId);] *)
Definition presence_leave (roomId userId : string)
    (ou : gmap string (gset string)) : gmap string (gset string) :=
  let ou1 := alter (λ users, users ∖ {[userId]}) roomId ou in
  match ou1 !! roomId with
  | Some users => if decide (size users = 0) then delete roomId ou1 else ou1
  | None => ou1
  end.

(** [socket.on("leave-room")] *)
Definition on_leave_room (sid roomId : string) (s : State DB) : State DB * list Emission :=
  match bound_identity s sid with
  | None => (s, [])
  | Some userId =>
      let s1 := socket_leave sid roomId s in
      (set_onlineUsers (presence_leave roomId userId (onlineUsers s1)) s1,
       [Emit (ToRoom roomId) "user_offline" (JString userId)])
  end.

(** [socket.on("send-message")] *)
Definition on_send_message (sid : string) (data : SendMessageData) (s : State DB)
    : State DB * list Emission :=
  let input := {| mc_content := smd_message data;
                  mc_type := default "text" (smd_type data);
                  mc_imageUrl := smd_imageUrl data;
                  mc_roomId := smd_roomId data;
                  mc_userId := smd_userId data |} in
  match message_create (db s) input with
  | Some (newMessage, db') =>
      (set_db db' s, [Emit (ToRoom (smd_roomId data)) "new-message" newMessage])
  | None =>
      (s, [Emit (ToSocket sid) "error"
             (JObject [("message", JString "Failed to save message")])])
  end.

(** One turn of the loop of the disconnect handler, on the entry
    [(roomId, users)]; the accumulator is the map being mutated and the
    packets emitted so far. *)
Definition disconnect_room (userId roomId : string) (users : gset string)
    (acc : gmap string (gset string) * list Emission)
    : gmap string (gset string) * list Emission :=
  if decide (userId ∈ users) then
    let users' := users ∖ {[userId]} in
    (if decide (size users' = 0) then delete roomId acc.1
     else <[roomId := users']> acc.1,
     acc.2 ++ [Emit (ToRoom roomId) "user_offline" (JString userId)])
  else acc.

(** What one turn of the loop makes of a room's entry, how many packets it
    sends to the room, and their shape. *)
Definition users_without (userId : string) (users : gset string) : option (gset string) :=
  if decide (userId ∈ users) then
    if decide (size (users ∖ {[userId]}) = 0) then None else Some (users ∖ {[userId]})
  else Some users.

Definition offline_count (userId : string) (entry : option (gset string)) : nat :=
  match entry with
  | Some users => if decide (userId ∈ users) then 1 else 0
  | None => 0
  end.

Definition offline_to_room (userId : string) (em : Emission) : Prop :=
  em_event em = "user_offline" ∧ em_payload em = JString userId
  ∧ ∃ room, em_target em = ToRoom room.

(** [for (const [roomId, users] of onlineUsers.entries()) ...] *)
Definition disconnect_rooms (userId : string) (ou : gmap string (gset string))
    : gmap string (gset string) * list Emission :=
  map_fold (disconnect_room userId) (ou, []) ou.

(** [socket.on("disconnect")] *)
Definition on_disconnect (sid : string) (s : State DB) : State DB * list Emission :=
  match bound_identity s sid with
  | Some userId =>
      let r := disconnect_rooms userId (onlineUsers s) in
      (set_userSockets (delete sid (userSockets s)) (set_onlineUsers r.1 s),
       r.2 ++ [Emit ToAll "user_offline" (JString userId)])
  | None => (s, [])
  end.

(** [socket.on("message_updated")] and [socket.on("message_deleted")] *)
Definition on_message_updated (roomId messageId content : string) (s : State DB)
    : State DB * list Emission :=
  (s, [Emit (ToRoom roomId) "message_updated"
         (JObject [("messageId", JString messageId); ("content", JString content)])]).

Definition on_message_deleted (roomId messageId : string) (s : State DB)
    : State DB * list Emission :=
  (s, [Emit (ToRoom roomId) "message_deleted"
         (JObject [("messageId", JString messageId)])]).

(** The call channel of a room: [`video-${roomId}`]. *)
Definition video_channel (roomId : string) : string := "video-" +:+ roomId.

(** [socket.on("join-video-chat", ({ roomId, userId }) => ...)] *)
Definition on_join_video_chat (sid roomId userId : string) (isAudioOnly : bool)
    (s : State DB) : State DB * list Emission :=
  (socket_join sid (video_channel roomId) s,
   [Emit (ToOthers (video_channel roomId) sid) "user-joined-video"
      (JObject [("userId", JString userId)])]).

(** [socket.on("leave-video-chat")] *)
Definition on_leave_video_chat (sid roomId userId : string) (s : State DB)
    : State DB * list Emission :=
  (socket_leave sid (video_channel roomId) s,
   [Emit (ToRoom (video_channel roomId)) "user-left-video"
      (JObject [("userId", JString userId)])]).

(** [socket.on("video-offer")], [socket.on("video-answer")] and
    [socket.on("ice-candidate")]:
    [({ roomId, userId, targetUserId, offer }) =>
       io.to(`video-${roomId}`).emit("video-offer", { userId, offer })] *)
Definition on_signal (k : SignalKind) (data : SignalData) (s : State DB)
    : State DB * list Emission :=
  (s, [Emit (ToRoom (video_channel (sd_roomId data))) (signal_event k)
         (JObject [("userId", JString (sd_userId data));
                   (signal_field k, sd_body data)])]).

(** The handler of a client message on connection [sid]. *)
Definition handle (sid : string) (m : ClientMsg) (s : State DB) : State DB * list Emission :=
  match m with
  | Identify userId => on_identify sid userId s
  | JoinRoom roomId => on_join_room sid roomId s
  | LeaveRoom roomId => on_leave_room sid roomId s
  | SendMessage data => on_send_message sid data s
  | MessageUpdated roomId messageId content => on_message_updated roomId messageId content s
  | MessageDeleted roomId messageId => on_message_deleted roomId messageId s
  | JoinVideoChat roomId userId isAudioOnly => on_join_video_chat sid roomId userId isAudioOnly s
  | LeaveVideoChat roomId userId => on_leave_video_chat sid roomId userId s
  | Signal k data => on_signal k data s
  end.

(** What happens to the relay.  [RosterAnswer roomId] is storage answering
    the [findMany] of a [join-room] of [roomId] that passed its guard; it
    comes once for each such [join-room], at any later moment.  The state
    keeps no record of the queries in flight, so [step] takes an answer in
    any state: the traces of the relay are among those of the model. *)
Inductive Event : Type :=
  | Connection (sid : string)
  | Receive (sid : string) (m : ClientMsg)
  | Disconnect (sid : string)
  | RosterAnswer (roomId : string).

(** Handlers are registered per connection: an event on a socket that is not
    connected does not occur. *)
Definition step (s : State DB) (e : Event) : State DB * list Emission :=
  match e with
  | Connection sid =>
      match sids s !! sid with
      | Some _ => (s, [])
      | None => (set_sids (<[sid := {[sid]}]> (sids s)) s, [])
      end
  | Receive sid m =>
      match sids s !! sid with
      | Some _ => handle sid m s
      | None => (s, [])
      end
  | Disconnect sid =>
      match sids s !! sid with
      | Some _ => on_disconnect sid (set_sids (delete sid (sids s)) s)
      | None => (s, [])
      end
  | RosterAnswer roomId => on_join_room_answer roomId s
  end.

Definition run (s : State DB) (trace : list Event) : State DB :=
  foldl (λ s e, (step s e).1) s trace.

(** *** Vocabulary for the properties *)

(** Some connection bound to [userId] is in the adapter room [room]. *)
Definition has_active_join (s : State DB) (room userId : string) : Prop :=
  ∃ sid, userSockets s !! sid = Some userId ∧ joined s sid room.

(** The event is a [join-room] for [room] on a live connection bound to
    [userId]. *)
Definition joins_presence (s : State DB) (e : Event) (room userId : string) : Prop :=
  ∃ sid, e = Receive sid (JoinRoom room)
         ∧ is_Some (sids s !! sid) ∧ bound_identity s sid = Some userId.

(** The event is a [leave-room] for [room], or a disconnect, on a live
    connection bound to [userId]. *)
Definition leaves_presence (s : State DB) (e : Event) (room userId : string) : Prop :=
  ∃ sid, (e = Receive sid (LeaveRoom room) ∨ e = Disconnect sid)
         ∧ is_Some (sids s !! sid) ∧ bound_identity s sid = Some userId.

(** The events of the presence tracker. *)
Definition presence_event (e : Event) : Prop :=
  match e with
  | Connection _ | Disconnect _ | RosterAnswer _ => True
  | Receive _ (Identify _) | Receive _ (JoinRoom _) | Receive _ (LeaveRoom _) => True
  | Receive _ _ => False
  end.

(** Along the trace, every [join-room] that takes effect is issued under an
    identity that is on the durable roster of the room. *)
Fixpoint joins_by_members (s : State DB) (trace : list Event) : Prop :=
  match trace with
  | [] => True
  | e :: rest =>
      match e with
      | Receive sid (JoinRoom room) =>
          ∀ userId, is_Some (sids s !! sid) → bound_identity s sid = Some userId →
                    in_roster (db s) room userId
      | _ => True
      end
      ∧ joins_by_members (step s e).1 rest
  end.

(** The packets of a list that announce [userId] offline. *)
Definition is_offline (userId : string) (em : Emission) : Prop :=
  em_event em = "user_offline" ∧ em_payload em = JString userId.

End Handlers.
End Server.

(** ** The call component ([src/app/components/chat/video-chat.tsx]) *)

(** [String(v)], used when a value serves as a property key. *)
Fixpoint js_to_string (v : JsValue) : string :=
  match v with
  | JUndefined => "undefined"
  | JNull => "null"
  | JBool true => "true"
  | JBool false => "false"
  | JString s => s
  | JArray items =>
      (fix join (l : list JsValue) : string :=
         match l with
         | [] => ""
         | x :: rest =>
             let sx := match x with
                       | JUndefined | JNull => ""
                       | _ => js_to_string x
                       end in
             match rest with
             | [] => sx
             | _ => sx +:+ "," +:+ join rest
             end
         end) items
  | JObject _ => "[object Object]"
  end.

Module VideoChat.

(** The props the handlers close over. *)
Record Props : Type := {
  roomId : string;
  userId : string;
}.

(** A member of the constraints passed to [getUserMedia]: left out or
    [false], [true], or the literal settings object of the source. *)
Inductive TrackRequest : Type := Off | Any | Tuned.

Record Constraints : Type := {
  c_audio : TrackRequest;
  c_video : TrackRequest;
}.

Record MediaStream : Type := {
  audioTracks : nat;
  videoTracks : nat;
}.

(** What a rejected promise carries: an [Error] with its name and message,
    or some other value. *)
Inductive Thrown : Type :=
  | ThrownError (name message : string)
  | ThrownValue.

Inductive Completion (A : Type) : Type :=
  | Normal (a : A)
  | Throw (e : Thrown).
Arguments Normal {A} _.
Arguments Throw {A} _.

(** An [RTCPeerConnection] object made by [createPeerConnection(peerId)]. *)
Record PeerConnection : Type := {
  pc_peer : JsValue;                     (* the peerId its callbacks close over *)
  pc_tracks : option MediaStream;        (* local tracks added *)
  pc_local : option JsValue;             (* local description *)
  pc_remote : option JsValue;            (* remote description *)
  pc_candidates : list JsValue;          (* remote candidates added *)
  pc_closed : bool;
}.

(** What [checkMediaDevices] reports. *)
Record Devices : Type := {
  video : bool;
  audio : bool;
}.

(** The browser: media devices and the WebRTC stack.  The answer of the
    devices to a request is the same throughout one acquisition. *)
Class Browser : Type := {
  getUserMedia : Constraints → Completion MediaStream;
  createOffer : PeerConnection → Completion JsValue;
  createAnswer : PeerConnection → Completion JsValue;
  setDescription : PeerConnection → JsValue → Completion ();
  addIceCandidate : PeerConnection → JsValue → Completion ();
}.

(** The state of the component: its React state and the connection objects
    it created ([peers] holds references to them). *)
Record State : Type := mkState {
  peers : gmap string nat;
  streams : gmap string MediaStream;
  localStream : option MediaStream;
  error : option string;
  isAudioOnly : bool;
  connections : list PeerConnection;
}.

Definition initial : State := mkState ∅ ∅ None None false [].

(** Handlers registered by the effect read the [peers], [streams] and
    [localStream] of the render in which the effect ran. *)
Record View : Type := {
  v_peers : gmap string nat;
  v_streams : gmap string MediaStream;
  v_localStream : option MediaStream;
}.

Definition view_of (st : State) : View :=
  {| v_peers := peers st; v_streams := streams st; v_localStream := localStream st |}.

(** Handler code: it updates the state, emits to the relay, and completes
    or throws. *)
Definition M (A : Type) : Type := State → State * list ClientMsg * Completion A.

Definition ret {A} (a : A) : M A := λ st, (st, [], Normal a).

Definition bind {A B} (m : M A) (k : A → M B) : M B :=
  λ st, match m st with
        | (st1, out1, Normal a) =>
            match k a st1 with
            | (st2, out2, r) => (st2, out1 ++ out2, r)
            end
        | (st1, out1, Throw e) => (st1, out1, Throw e)
        end.

Definition try_catch {A} (m : M A) (h : Thrown → M A) : M A :=
  λ st, match m st with
        | (st1, out1, Normal a) => (st1, out1, Normal a)
        | (st1, out1, Throw e) =>
            match h e st1 with
            | (st2, out2, r) => (st2, out1 ++ out2, r)
            end
        end.

Definition await {A} (c : Completion A) : M A := λ st, (st, [], c).
Definition emit (m : ClientMsg) : M () := λ st, (st, [m], Normal ()).
Definition update (f : State → State) : M () := λ st, (f st, [], Normal ()).
Definition read : M State := λ st, (st, [], Normal st).

Global Instance M_ret : MRet M := @ret.
Global Instance M_bind : MBind M := λ A B k m, bind m k.

Definition setPeers (f : gmap string nat → gmap string nat) : M () :=
  update (λ st, mkState (f (peers st)) (streams st) (localStream st) (error st)
                  (isAudioOnly st) (connections st)).
Definition setStreams (f : gmap string MediaStream → gmap string MediaStream) : M () :=
  update (λ st, mkState (peers st) (f (streams st)) (localStream st) (error st)
                  (isAudioOnly st) (connections st)).
Definition setLocalStream (v : option MediaStream) : M () :=
  update (λ st, mkState (peers st) (streams st) v (error st)
                  (isAudioOnly st) (connections st)).
Definition setError (v : option string) : M () :=
  update (λ st, mkState (peers st) (streams st) (localStream st) v
                  (isAudioOnly st) (connections st)).
Definition setIsAudioOnly (v : bool) : M () :=
  update (λ st, mkState (peers st) (streams st) (localStream st) (error st)
                  v (connections st)).
Definition setConnections (f : list PeerConnection → list PeerConnection) : M () :=
  update (λ st, mkState (peers st) (streams st) (localStream st) (error st)
                  (isAudioOnly st) (f (connections st))).

Section Component.
Context {browser : Browser} (props : Props).

(** [checkMediaDevices]: the microphone is probed first, then the camera;
    a camera that cannot be opened is not an error. *)
Definition checkMediaDevices : Completion Devices :=
  match getUserMedia {| c_audio := Any; c_video := Off |} with
  | Normal _ =>
      match getUserMedia {| c_audio := Off; c_video := Any |} with
      | Normal _ => Normal {| video := true; audio := true |}
      | Throw _ => Normal {| video := false; audio := true |}
      end
  | Throw err => Throw err
  end.

(** The message the [catch] of [initializeMediaStream] shows. *)
Definition media_error_message (err : Thrown) : string :=
  match err with
  | ThrownError name message =>
      if decide (name = "NotFoundError") then
        "No camera or microphone found. Please connect a device and try again."
      else if decide (name = "NotAllowedError") then
        "Please allow access to your camera and/or microphone to use chat."
      else if decide (name = "NotReadableError") then
        "Your camera or microphone is already in use by another application."
      else "Error accessing media devices. " +:+ message
  | ThrownValue => "Error accessing media devices. "
  end.

(** [initializeMediaStream] *)
Definition initializeMediaStream : M () :=
  try_catch
    (devices ← await checkMediaDevices;
     setIsAudioOnly (negb (video devices));;
     stream ← await (getUserMedia {| c_video := if video devices then Tuned else Off;
                                     c_audio := Tuned |});
     setLocalStream (Some stream);;
     setError None;;
     emit (JoinVideoChat (roomId props) (userId props) (negb (video devices))))
    (λ err, setError (Some (media_error_message err))).

(** The [Try audio only] button. *)
Definition tryAudioOnly : M () :=
  setIsAudioOnly true;;
  try_catch
    (stream ← await (getUserMedia {| c_audio := Tuned; c_video := Off |});
     setLocalStream (Some stream);;
     setError None;;
     emit (JoinVideoChat (roomId props) (userId props) true))
    (λ _, setError (Some "Failed to start audio-only mode. Please check your microphone.")).

(** [createPeerConnection(peerId)]: a new connection object with the local
    tracks of the captured [localStream]; the result is its reference. *)
Definition createPeerConnection (view : View) (peerId : JsValue) : M nat :=
  st ← read;
  setConnections (λ cs, cs ++ [{| pc_peer := peerId;
                                  pc_tracks := v_localStream view;
                                  pc_local := None;
                                  pc_remote := None;
                                  pc_candidates := [];
                                  pc_closed := false |}]);;
  ret (length (connections st)).

(** Operations on a connection object through its reference. *)
Definition with_connection {A} (ref : nat) (op : PeerConnection → Completion A)
    (after : PeerConnection → PeerConnection) : M A :=
  st ← read;
  match connections st !! ref with
  | Some pc =>
      a ← await (op pc);
      setConnections (λ cs, <[ref := after pc]> cs);;
      ret a
  | None => await (Throw (ThrownError "TypeError" "not a connection"))
  end.

Definition set_local (d : JsValue) (pc : PeerConnection) : PeerConnection :=
  {| pc_peer := pc_peer pc; pc_tracks := pc_tracks pc; pc_local := Some d;
     pc_remote := pc_remote pc; pc_candidates := pc_candidates pc;
     pc_closed := pc_closed pc |}.
Definition set_remote (d : JsValue) (pc : PeerConnection) : PeerConnection :=
  {| pc_peer := pc_peer pc; pc_tracks := pc_tracks pc; pc_local := pc_local pc;
     pc_remote := Some d; pc_candidates := pc_candidates pc;
     pc_closed := pc_closed pc |}.
Definition add_candidate (c : JsValue) (pc : PeerConnection) : PeerConnection :=
  {| pc_peer := pc_peer pc; pc_tracks := pc_tracks pc; pc_local := pc_local pc;
     pc_remote := pc_remote pc; pc_candidates := pc_candidates pc ++ [c];
     pc_closed := pc_closed pc |}.
Definition close (pc : PeerConnection) : PeerConnection :=
  {| pc_peer := pc_peer pc; pc_tracks := pc_tracks pc; pc_local := pc_local pc;
     pc_remote := pc_remote pc; pc_candidates := pc_candidates pc;
     pc_closed := true |}.

Definition signal (k : SignalKind) (peerId body : JsValue) : ClientMsg :=
  Signal k {| sd_roomId := roomId props; sd_userId := userId props;
              sd_targetUserId := peerId; sd_body := body |}.

(** [socket.on("user-joined-video", async ({ userId: peerId }) => ...)] *)
Definition on_user_joined_video (view : View) (payload : JsValue) : M () :=
  let peerId := get_field "userId" payload in
  ref ← createPeerConnection view peerId;
  setPeers (λ prev, <[js_to_string peerId := ref]> prev);;
  match v_localStream view with
  | Some _ =>
      offer ← with_connection ref createOffer id;
      with_connection ref (λ pc, setDescription pc offer) (set_local offer);;
      emit (signal Offer peerId offer)
  | None => ret ()
  end.

(** [socket.on("video-offer", async ({ userId: peerId, offer }) => ...)] *)
Definition on_video_offer (view : View) (payload : JsValue) : M () :=
  let peerId := get_field "userId" payload in
  let offer := get_field "offer" payload in
  ref ← createPeerConnection view peerId;
  setPeers (λ prev, <[js_to_string peerId := ref]> prev);;
  with_connection ref (λ pc, setDescription pc offer) (set_remote offer);;
  answer ← with_connection ref createAnswer id;
  with_connection ref (λ pc, setDescription pc answer) (set_local answer);;
  emit (signal Answer peerId answer).

(** [socket.on("video-answer", async ({ userId: peerId, answer }) => ...)] *)
Definition on_video_answer (view : View) (payload : JsValue) : M () :=
  let peerId := get_field "userId" payload in
  let answer := get_field "answer" payload in
  match v_peers view !! js_to_string peerId with
  | Some ref => with_connection ref (λ pc, setDescription pc answer) (set_remote answer)
  | None => ret ()
  end.

(** [socket.on("ice-candidate", async ({ userId: peerId, candidate }) => ...)] *)
Definition on_ice_candidate (view : View) (payload : JsValue) : M () :=
  let peerId := get_field "userId" payload in
  let candidate := get_field "candidate" payload in
  match v_peers view !! js_to_string peerId with
  | Some ref => with_connection ref (λ pc, addIceCandidate pc candidate)
                  (add_candidate candidate)
  | None => ret ()
  end.

(** [socket.on("user-left-video", ({ userId: peerId }) => ...)] *)
Definition on_user_left_video (view : View) (payload : JsValue) : M () :=
  let peerId := get_field "userId" payload in
  match v_peers view !! js_to_string peerId with
  | Some ref =>
      setConnections (λ cs, match cs !! ref with
                            | Some pc => <[ref := close pc]> cs
                            | None => cs
                            end);;
      setPeers (λ _, delete (js_to_string peerId) (v_peers view));;
      setStreams (λ _, delete (js_to_string peerId) (v_streams view))
  | None => ret ()
  end.

(** [peerConnection.onicecandidate]: a gathered local candidate is sent to
    the relay, addressed to the peer of the connection. *)
Definition on_local_candidate (ref : nat) (candidate : option JsValue) : M () :=
  st ← read;
  match connections st !! ref, candidate with
  | Some pc, Some c => emit (signal Candidate (pc_peer pc) c)
  | _, _ => ret ()
  end.

(** [peerConnection.ontrack] *)
Definition on_track (ref : nat) (stream : MediaStream) : M () :=
  st ← read;
  match connections st !! ref with
  | Some pc => setStreams (λ prev, <[js_to_string (pc_peer pc) := stream]> prev)
  | None => ret ()
  end.

(** The handler the effect registers for an event of the relay. *)
Definition on_event (view : View) (event : string) (payload : JsValue) : M () :=
  if decide (event = "user-joined-video") then on_user_joined_video view payload
  else if decide (event = "video-offer") then on_video_offer view payload
  else if decide (event = "video-answer") then on_video_answer view payload
  else if decide (event = "ice-candidate") then on_ice_candidate view payload
  else if decide (event = "user-left-video") then on_user_left_video view payload
  else ret ().

End Component.

(** What the grid shows for a participant. *)
Inductive Tile : Type := VideoElement | AudioOnlyPlaceholder.

(** The local tile follows [isAudioOnly]; a remote tile follows the video
    tracks of the received stream:
    [stream.getVideoTracks().length > 0 ? <video/> : <placeholder/>]. *)
Definition local_tile (st : State) : Tile :=
  if isAudioOnly st then AudioOnlyPlaceholder else VideoElement.

Definition remote_tile (stream : MediaStream) : Tile :=
  if decide (0 < videoTracks stream) then VideoElement else AudioOnlyPlaceholder.

Definition remote_tiles (st : State) : gmap string Tile := remote_tile <$> streams st.

End VideoChat.

(** ** Worked examples: an in-memory storage and a browser *)

Module Examples.

(** Rows of [roomMember] and of [message]; [md_up = false] makes every call
    throw. *)
Record MemDb : Type := {
  md_members : list RoomMember;
  md_messages : list JsValue;
  md_up : bool;
}.

(** The record an insertion returns: the input columns, and the id and the
    timestamp the storage assigns. *)
Definition mem_record (n : nat) (input : MessageCreateInput) : JsValue :=
  JObject [("id", JString ("msg-" +:+ pretty n));
           ("content", JString (mc_content input));
           ("type", JString (mc_type input));
           ("imageUrl", js_nullable (mc_imageUrl input));
           ("roomId", JString (mc_roomId input));
           ("userId", JString (mc_userId input));
           ("createdAt", JString ("t" +:+ pretty n));
           ("isEdited", JBool false);
           ("isDeleted", JBool false)].

Global Instance mem_storage : Storage MemDb := {|
  roomMember_findMany d room :=
    if md_up d then Some (filter (λ m, rm_roomId m = room) (md_members d)) else None;
  message_create d input :=
    if md_up d then
      let record := mem_record (length (md_messages d)) input in
      Some (record, {| md_members := md_members d;
                       md_messages := md_messages d ++ [record];
                       md_up := true |})
    else None;
|}.

Definition member (room uid : string) : RoomMember :=
  {| rm_roomId := room;
     rm_user := {| user_id := uid; user_name := Some uid; user_email := None |} |}.

(** Nobody is a durable member of any room. *)
Definition db_empty : MemDb := {| md_members := []; md_messages := []; md_up := true |}.
(** [alice] and [bob] are durable members of [lobby]. *)
Definition db_lobby : MemDb :=
  {| md_members := [member "lobby" "alice"; member "lobby" "bob"];
     md_messages := []; md_up := true |}.
(** The same roster behind a storage that is down. *)
Definition db_down : MemDb :=
  {| md_members := [member "lobby" "alice"; member "lobby" "bob"];
     md_messages := []; md_up := false |}.

Definition hello : SendMessageData :=
  {| smd_roomId := "lobby"; smd_message := "hi"; smd_userId := "alice";
     smd_type := None; smd_imageUrl := None |}.

(** [alice] on connection [c1] and [bob] on [c2], both in [lobby]. *)
Definition two_in_lobby : list Server.Event :=
  [Server.Connection "c1"; Server.Connection "c2";
   Server.Receive "c1" (Identify "alice"); Server.Receive "c2" (Identify "bob");
   Server.Receive "c1" (JoinRoom "lobby"); Server.Receive "c2" (JoinRoom "lobby")].

(** [alice] on two connections, both in [lobby]. *)
Definition alice_twice : list Server.Event :=
  [Server.Connection "c1"; Server.Connection "c2";
   Server.Receive "c1" (Identify "alice"); Server.Receive "c2" (Identify "alice");
   Server.Receive "c1" (JoinRoom "lobby"); Server.Receive "c2" (JoinRoom "lobby")].

(** [mallory], who is on no roster, joins [lobby]. *)
Definition outsider_joins : list Server.Event :=
  [Server.Connection "c1"; Server.Receive "c1" (Identify "mallory");
   Server.Receive "c1" (JoinRoom "lobby")].

(** Three participants in the call of [lobby]. *)
Definition call_of_three : list Server.Event :=
  [Server.Connection "ca"; Server.Connection "cb"; Server.Connection "cc";
   Server.Receive "ca" (JoinVideoChat "lobby" "alice" false);
   Server.Receive "cb" (JoinVideoChat "lobby" "bob" false);
   Server.Receive "cc" (JoinVideoChat "lobby" "carol" false)].

(** The offer [alice] addresses to [bob]. *)
Definition offer_to_bob : SignalData :=
  {| sd_roomId := "lobby"; sd_userId := "alice";
     sd_targetUserId := JString "bob"; sd_body := JString "sdp-offer" |}.

(** A browser whose camera is refused and whose microphone works. *)
Definition microphone_only : VideoChat.Browser := {|
  VideoChat.getUserMedia c :=
    match VideoChat.c_video c with
    | VideoChat.Off => VideoChat.Normal
                         {| VideoChat.audioTracks := 1; VideoChat.videoTracks := 0 |}
    | _ => VideoChat.Throw (VideoChat.ThrownError "NotAllowedError" "Permission denied")
    end;
  VideoChat.createOffer _ := VideoChat.Normal (JString "sdp-offer");
  VideoChat.createAnswer _ := VideoChat.Normal (JString "sdp-answer");
  VideoChat.setDescription _ _ := VideoChat.Normal ();
  VideoChat.addIceCandidate _ _ := VideoChat.Normal ();
|}.

Definition carol : VideoChat.Props :=
  {| VideoChat.roomId := "lobby"; VideoChat.userId := "carol" |}.
Definition alice : VideoChat.Props :=
  {| VideoChat.roomId := "lobby"; VideoChat.userId := "alice" |}.

(** The relay states the examples start from. *)
Definition lobby_of_two : Server.State MemDb := Server.run (Server.init db_lobby) two_in_lobby.
Definition lobby_alice_twice : Server.State MemDb := Server.run (Server.init db_lobby) alice_twice.
Definition lobby_down : Server.State MemDb := Server.run (Server.init db_down) two_in_lobby.
Definition call_lobby : Server.State MemDb := Server.run (Server.init db_lobby) call_of_three.
(** [alice] identified on [c1] and [c2], before any join. *)
Definition alice_identified : Server.State MemDb :=
  Server.run (Server.init db_lobby)
    [Server.Connection "c1"; Server.Connection "c2";
     Server.Receive "c1" (Identify "alice"); Server.Receive "c2" (Identify "alice")].
(** A connection that never sent [identify]. *)
Definition anonymous : Server.State MemDb :=
  Server.run (Server.init db_lobby) (two_in_lobby ++ [Server.Connection "c9"]).

Definition offline_alice_lobby : Server.Emission :=
  Server.Emit (Server.ToRoom "lobby") "user_offline" (JString "alice").
Definition offline_alice_all : Server.Emission :=
  Server.Emit Server.ToAll "user_offline" (JString "alice").

(** A candidate relayed on behalf of [bob]. *)
Definition candidate_from_bob : JsValue :=
  JObject [("userId", JString "bob"); ("candidate", JString "candidate:1")].

End Examples.

(** ** The chat page and the socket helpers *)

(** [{ ...o, k: v }]: the property keeps its place when [o] has it and comes
    last otherwise. *)
Fixpoint set_field (k : string) (v : JsValue) (fields : list (string * JsValue))
    : list (string * JsValue) :=
  match fields with
  | [] => [(k, v)]
  | (k', v') :: rest =>
      if decide (k' = k) then (k, v) :: rest else (k', v') :: set_field k v rest
  end.

(** [a === b] for values that come from different packets: primitives are
    compared by value, and two objects or arrays are never the same one. *)
Definition strict_eq (a b : JsValue) : bool :=
  match a, b with
  | JUndefined, JUndefined => true
  | JNull, JNull => true
  | JBool x, JBool y => bool_decide (x = y)
  | JString x, JString y => bool_decide (x = y)
  | _, _ => false
  end.

(** The helpers of the socket module, as the messages they send on a socket
    that is connected or not. *)
Module SocketLib.

Definition joinRoom (connected : bool) (roomId : string) : list ClientMsg :=
  if connected then [JoinRoom roomId] else [].

Definition leaveRoom (connected : bool) (roomId : string) : list ClientMsg :=
  if connected then [LeaveRoom roomId] else [].

Definition sendMessage (connected : bool) (roomId message userId : string) : list ClientMsg :=
  if connected then
    [SendMessage {| smd_roomId := roomId; smd_message := message; smd_userId := userId;
                    smd_type := None; smd_imageUrl := None |}]
  else [].

End SocketLib.

(** The page: the messages and the members it shows are the objects it got
    from the relay and from storage. *)
Module Page.

Record State : Type := mkState {
  currentRoom : option string;
  messages : list (list (string * JsValue));
  roomMembers : list (list (string * JsValue));
  error : option JsValue;
}.

Definition setMessages (f : list (list (string * JsValue)) → list (list (string * JsValue)))
    (st : State) : State :=
  mkState (currentRoom st) (f (messages st)) (roomMembers st) (error st).
Definition setRoomMembers
    (f : list (list (string * JsValue)) → list (list (string * JsValue)))
    (st : State) : State :=
  mkState (currentRoom st) (messages st) (f (roomMembers st)) (error st).
Definition setError (v : option JsValue) (st : State) : State :=
  mkState (currentRoom st) (messages st) (roomMembers st) v.
Definition setCurrentRoom (v : option string) (st : State) : State :=
  mkState v (messages st) (roomMembers st) (error st).

(** [prev.map((o) => o.id === id ? { ...o, <updates> } : o)] *)
Definition update_by_id (id : JsValue) (updates : list (string * JsValue))
    (o : list (string * JsValue)) : list (string * JsValue) :=
  if strict_eq (lookup_field "id" o) id
  then foldl (λ fields kv, set_field kv.1 kv.2 fields) o updates
  else o.

(** [socket.on("new-message")] *)
Definition on_new_message (message : list (string * JsValue)) : State → State :=
  setMessages (λ prev, prev ++ [message]).

(** [socket.on("message_updated", ({ messageId, content }) => ...)] *)
Definition on_message_updated (payload : JsValue) : State → State :=
  setMessages (λ prev,
    update_by_id (get_field "messageId" payload)
      [("content", get_field "content" payload); ("isEdited", JBool true)] <$> prev).

(** [socket.on("message_deleted", ({ messageId }) => ...)] *)
Definition on_message_deleted (payload : JsValue) : State → State :=
  setMessages (λ prev,
    update_by_id (get_field "messageId" payload) [("isDeleted", JBool true)] <$> prev).

(** [socket.on("room_members_update")] *)
Definition on_room_members_update (members : list (list (string * JsValue)))
    : State → State :=
  setRoomMembers (λ _, members).

(** [socket.on("user_online")] and [socket.on("user_offline")] *)
Definition on_user_online (userId : JsValue) : State → State :=
  setRoomMembers (λ prev, update_by_id userId [("online", JBool true)] <$> prev).
Definition on_user_offline (userId : JsValue) : State → State :=
  setRoomMembers (λ prev, update_by_id userId [("online", JBool false)] <$> prev).

(** [socket.on("error", (error) => setError(error.message))] *)
Definition on_error (payload : JsValue) : State → State :=
  setError (Some (get_field "message" payload)).

(** The objects of an array; [None] when an item is not an object. *)
Definition objects (items : list JsValue) : option (list (list (string * JsValue))) :=
  mapM (λ v, match v with JObject fields => Some fields | _ => None end) items.

(** The listener for a packet of the relay.  [None]: the payload is not of
    the type the listener declares (a record for [new-message], an array of
    members for [room_members_update]); nothing is said about that case. *)
Definition receive (event : string) (payload : JsValue) (st : State) : option State :=
  if decide (event = "new-message") then
    match payload with
    | JObject message => Some (on_new_message message st)
    | _ => None
    end
  else if decide (event = "message_updated") then Some (on_message_updated payload st)
  else if decide (event = "message_deleted") then Some (on_message_deleted payload st)
  else if decide (event = "room_members_update") then
    match payload with
    | JArray items => (λ members, on_room_members_update members st) <$> objects items
    | _ => None
    end
  else if decide (event = "user_online") then Some (on_user_online payload st)
  else if decide (event = "user_offline") then Some (on_user_offline payload st)
  else if decide (event = "error") then Some (on_error payload st)
  else Some st.

(** The packets a connection gets, in the order they were sent. *)
Fixpoint receive_all (out : list Server.Emission) (st : State) : option State :=
  match out with
  | [] => Some st
  | em :: rest =>
      match receive (Server.em_event em) (Server.em_payload em) st with
      | Some st' => receive_all rest st'
      | None => None
      end
  end.

(** [handleJoinRoom] up to the fetch of the room's messages: leave the
    current room, if any, join the new one, and take it as the current room
    whether or not the socket is connected. *)
Definition handleJoinRoom (connected : bool) (roomId : string) (st : State)
    : State * list ClientMsg :=
  (setError None (setCurrentRoom (Some roomId) st),
   match currentRoom st with
   | Some current =>
       if decide (current = "") then [] else SocketLib.leaveRoom connected current
   | None => []
   end ++ SocketLib.joinRoom connected roomId).

End Page.

(** ** The members route ([src/app/api/rooms/[roomId]/members/route.ts]) *)

Module MembersRoute.

Record Room : Type := {
  room_id : string;
  room_ownerId : string;
}.

(** The calls the route makes; [None] is a call that throws. *)
Class RosterStorage (DB : Type) : Type := {
  (** [prisma.roomMember.findUnique({ where: { userId_roomId } })] *)
  roomMember_findUnique : DB → string → string → option (option RoomMember);
  (** [prisma.roomMember.create({ data, include: { room } })]: the room of
      the new row and the database after the insertion. *)
  roomMember_create : DB → string → string → option (JsValue * DB);
  (** [prisma.room.findUnique({ where: { id } })] *)
  room_findUnique : DB → string → option (option Room);
  (** [prisma.roomMember.delete({ where: { userId_roomId } })] *)
  roomMember_delete : DB → string → string → option DB;
}.

Record Response : Type := {
  status : nat;
  body : JsValue;
}.

Definition error_response (message : string) (code : nat) : Response :=
  {| status := code; body := JObject [("error", JString message)] |}.

Section Route.
Context {DB : Type} {roster : RosterStorage DB}.

(** [POST].  [session] is what [getServerSession] gives: [None] when it
    throws, [Some None] when nobody is signed in, else the id of the user. *)
Definition POST (session : option (option string)) (roomId : string) (d : DB)
    : Response * DB :=
  match session with
  | None => (error_response "Error joining room" 500, d)
  | Some None => (error_response "Unauthorized" 401, d)
  | Some (Some userId) =>
      match roomMember_findUnique d userId roomId with
      | None => (error_response "Error joining room" 500, d)
      | Some (Some existingMember) =>
          (error_response "Already a member of this room" 400, d)
      | Some None =>
          match roomMember_create d userId roomId with
          | Some (room, d') => ({| status := 201; body := room |}, d')
          | None => (error_response "Error joining room" 500, d)
          end
      end
  end.

(** [DELETE] *)
Definition DELETE (session : option (option string)) (roomId : string) (d : DB)
    : Response * DB :=
  match session with
  | None => (error_response "Error leaving room" 500, d)
  | Some None => (error_response "Unauthorized" 401, d)
  | Some (Some userId) =>
      match room_findUnique d roomId with
      | None => (error_response "Error leaving room" 500, d)
      | Some room =>
          if bool_decide (room_ownerId <$> room = Some userId) then
            (error_response "Room owner cannot leave the room" 400, d)
          else
            match roomMember_delete d userId roomId with
            | Some d' => ({| status := 200; body := JObject [("success", JBool true)] |}, d')
            | None => (error_response "Error leaving room" 500, d)
            end
      end
  end.

(** The unique key of [roomMember]: a created row is found afterwards. *)
Definition unique_membership : Prop :=
  ∀ d userId roomId room d',
    roomMember_create d userId roomId = Some (room, d') →
    ∃ member, roomMember_findUnique d' userId roomId = Some (Some member).

End Route.
End MembersRoute.

(** ** Further worked examples *)

Module MoreExamples.

(** Rooms with their owner and membership rows, for the members route. *)
Record RosterDb : Type := {
  rd_rooms : list MembersRoute.Room;
  rd_rows : list RoomMember;
}.

Definition is_row (userId roomId : string) (m : RoomMember) : bool :=
  bool_decide (rm_roomId m = roomId ∧ user_id (rm_user m) = userId).

Definition is_room (roomId : string) (room : MembersRoute.Room) : bool :=
  bool_decide (MembersRoute.room_id room = roomId).

(** A row can only be created for a room that exists, and only an existing
    row can be deleted. *)
Global Instance roster_db : MembersRoute.RosterStorage RosterDb := {|
  MembersRoute.roomMember_findUnique d userId roomId :=
    Some (List.find (is_row userId roomId) (rd_rows d));
  MembersRoute.roomMember_create d userId roomId :=
    match List.find (is_room roomId) (rd_rooms d) with
    | Some room =>
        Some (JObject [("id", JString roomId);
                       ("ownerId", JString (MembersRoute.room_ownerId room))],
              {| rd_rooms := rd_rooms d;
                 rd_rows := rd_rows d ++ [Examples.member roomId userId] |})
    | None => None
    end;
  MembersRoute.room_findUnique d roomId := Some (List.find (is_room roomId) (rd_rooms d));
  MembersRoute.roomMember_delete d userId roomId :=
    if existsb (is_row userId roomId) (rd_rows d) then
      Some {| rd_rooms := rd_rooms d;
              rd_rows := List.filter (λ m, negb (is_row userId roomId m)) (rd_rows d) |}
    else None;
|}.

(** The room [lobby], owned by [alice], its only member. *)
Definition lobby_roster : RosterDb :=
  {| rd_rooms := [{| MembersRoute.room_id := "lobby"; MembersRoute.room_ownerId := "alice" |}];
     rd_rows := [Examples.member "lobby" "alice"] |}.

(** The page of somebody in [lobby]: one message, and [alice] and [bob]
    shown online. *)
Definition lobby_page : Page.State :=
  Page.mkState (Some "lobby")
    [[("id", JString "msg-0"); ("content", JString "hi"); ("isEdited", JBool false);
      ("isDeleted", JBool false)]]
    [[("id", JString "alice"); ("online", JBool true)];
     [("id", JString "bob"); ("online", JBool true)]]
    None.

(** A component that has a link to [bob], and the view of a handler
    registered in that state. *)
Definition linked_to_bob : VideoChat.State :=
  VideoChat.mkState {["bob" := 0]} ∅ None None false
    [{| VideoChat.pc_peer := JString "bob"; VideoChat.pc_tracks := None;
        VideoChat.pc_local := None; VideoChat.pc_remote := None;
        VideoChat.pc_candidates := []; VideoChat.pc_closed := false |}].

Definition from_bob : JsValue := JObject [("userId", JString "bob")].

(** A browser with a camera and a microphone that keeps to the WebRTC
    specification on closed connections: an operation on a closed
    [RTCPeerConnection] rejects with [InvalidStateError]. *)
Definition unless_closed {A : Type} (pc : VideoChat.PeerConnection) (a : A)
    : VideoChat.Completion A :=
  if VideoChat.pc_closed pc then
    VideoChat.Throw (VideoChat.ThrownError "InvalidStateError" "The connection is closed.")
  else VideoChat.Normal a.

Definition standard_browser : VideoChat.Browser := {|
  VideoChat.getUserMedia c :=
    VideoChat.Normal
      {| VideoChat.audioTracks := 1;
         VideoChat.videoTracks := match VideoChat.c_video c with
                                  | VideoChat.Off => 0
                                  | _ => 1
                                  end |};
  VideoChat.createOffer pc := unless_closed pc (JString "sdp-offer");
  VideoChat.createAnswer pc := unless_closed pc (JString "sdp-answer");
  VideoChat.setDescription pc _ := unless_closed pc ();
  VideoChat.addIceCandidate pc _ := unless_closed pc ();
|}.

(** An offer relayed on behalf of [bob]. *)
Definition offer_from_bob : JsValue :=
  JObject [("userId", JString "bob"); ("offer", JString "sdp-offer")].

(** [carol] opens the call: the effect registers its handlers, which read
    the state of that render, and acquires the media. *)
Definition call_opened : VideoChat.State :=
  (VideoChat.initializeMediaStream (browser := standard_browser) Examples.carol
     VideoChat.initial).1.1.

(** Her component after it answered an offer of [bob]: it has a link for
    [bob]. *)
Definition answered_bob : VideoChat.State :=
  (VideoChat.on_event (browser := standard_browser) Examples.carol
     (VideoChat.view_of VideoChat.initial) "video-offer" offer_from_bob call_opened).1.1.

(** [alice] on [c1] and [bob] on [c2], identified, in no room. *)
Definition two_identified : Server.State Examples.MemDb :=
  Server.run (Server.init Examples.db_lobby)
    [Server.Connection "c1"; Server.Connection "c2";
     Server.Receive "c1" (Identify "alice"); Server.Receive "c2" (Identify "bob")].

(** What the relay handles while the roster query of [alice]'s [join-room]
    is in flight: [bob] joins the room. *)
Definition bob_joins_meanwhile : list Server.Event :=
  [Server.Receive "c2" (JoinRoom "lobby")].

End MoreExamples.

(** ** Invariants of the relay *)

(** The presence map holds no empty room and no empty identity. *)
Definition presence_wf (ou : gmap string (gset string)) : Prop :=
  ∀ room users, ou !! room = Some users → users ≠ ∅ ∧ "" ∉ users.

(** Every usable binding belongs to a live connection. *)
Definition bindings_live {DB : Type} (s : Server.State DB) : Prop :=
  ∀ sid userId, Server.bound_identity s sid = Some userId → is_Some (Server.sids s !! sid).

(** A connection identifies, joins a room, identifies again under another
    identity and disconnects. *)
Definition rebind_then_disconnect (sid first room second : string) : list Server.Event :=
  [Server.Receive sid (Identify first); Server.Receive sid (JoinRoom room);
   Server.Receive sid (Identify second); Server.Disconnect sid].

(** The entries of a membership snapshot. *)
Definition snapshot_items (payload : JsValue) : list JsValue :=
  match payload with
  | JArray items => items
  | _ => []
  end.


(** * Properties *)

Import Server.

#[local] Set Warnings "-clear-no-such-hyp".

Section ServerFacts.
Context {DB : Type} {storage : Storage DB}.
Implicit Types (s : State DB) (ou : gmap string (gset string)).

(** *** The adapter *)

Lemma elem_of_receivers_room s room c :
  c ∈ receivers s (ToRoom room) ↔ joined s c room.
Proof.
  unfold receivers, joined. rewrite elem_of_dom. split.
  - intros [rs Hrs]. apply map_lookup_filter_Some in Hrs as [Hc Hin]. eauto.
  - intros (rs & Hc & Hin). exists rs. by apply map_lookup_filter_Some.
Qed.

Lemma joined_connected s c room : joined s c room → c ∈ dom (sids s).
Proof. intros (rs & Hc & _). apply elem_of_dom. eauto. Qed.

(** *** Presence: join *)

Lemma presence_join_lookup roomId userId ou room :
  default ∅ (presence_join roomId userId ou !! room)
  = if decide (roomId = room) then default ∅ (ou !! room) ∪ {[userId]}
    else default ∅ (ou !! room).
Proof.
  unfold presence_join. case_decide as Hr.
  - subst room. destruct (ou !! roomId) as [users|] eqn:Hou.
    + by rewrite lookup_alter_eq, Hou.
    + rewrite lookup_alter_eq, lookup_insert_eq. simpl. set_solver.
  - rewrite lookup_alter_ne by done.
    destruct (ou !! roomId); [done|]. by rewrite lookup_insert_ne.
Qed.

Lemma presence_join_idemp roomId userId ou :
  presence_join roomId userId (presence_join roomId userId ou)
  = presence_join roomId userId ou.
Proof.
  apply map_eq. intros room. unfold presence_join.
  destruct (ou !! roomId) as [users|] eqn:Hou.
  - rewrite lookup_alter_eq, Hou. simpl.
    destruct (decide (roomId = room)) as [->|Hne].
    + rewrite !lookup_alter_eq, Hou. simpl. f_equal. set_solver.
    + by rewrite !lookup_alter_ne.
  - rewrite lookup_alter_eq, lookup_insert_eq. simpl.
    destruct (decide (roomId = room)) as [->|Hne].
    + rewrite !lookup_alter_eq, lookup_insert_eq. simpl. f_equal. set_solver.
    + by rewrite !lookup_alter_ne.
Qed.

Lemma on_join_room_onlineUsers sid roomId s :
  onlineUsers (on_join_room sid roomId s).1
  = match bound_identity s sid with
    | Some userId => presence_join roomId userId (onlineUsers s)
    | None => onlineUsers s
    end.
Proof.
  unfold on_join_room. by destruct (bound_identity s sid).
Qed.

Lemma on_join_room_userSockets sid roomId s :
  userSockets (on_join_room sid roomId s).1 = userSockets s.
Proof.
  unfold on_join_room. by destruct (bound_identity s sid).
Qed.

(** C8. Two consecutive [join-room] for the same room under the same
    identity, on one connection or on two, leave the presence map as the
    first one left it: the room's presence set is equal and its size has not
    grown. *)
Theorem join_room_twice_presence s sid1 sid2 roomId :
  bound_identity s sid1 = bound_identity s sid2 →
  let s1 := (on_join_room sid1 roomId s).1 in
  let s2 := (on_join_room sid2 roomId s1).1 in
  onlineUsers s2 = onlineUsers s1
  ∧ presence s2 roomId = presence s1 roomId
  ∧ size (presence s2 roomId) = size (presence s1 roomId).
Proof.
  intros Hsame s1 s2.
  assert (onlineUsers s2 = onlineUsers s1) as Heq.
  { unfold s2. rewrite on_join_room_onlineUsers.
    unfold bound_identity. unfold s1 at 1. rewrite on_join_room_userSockets.
    fold (bound_identity s sid2). rewrite <- Hsame.
    unfold s1. rewrite on_join_room_onlineUsers.
    destruct (bound_identity s sid1); [|done].
    apply presence_join_idemp. }
  unfold presence. by rewrite Heq.
Qed.

(** *** Message relay *)

Lemma delivered_singleton s c em :
  delivered s c [em] = if decide (c ∈ receivers s (em_target em)) then [em] else [].
Proof. unfold delivered. rewrite filter_cons, filter_nil. done. Qed.

(** C3. [send-message] persists first and relays the stored record, with
    the id and the timestamp storage gave it, to exactly the connections
    joined to the room, the sender's included; when persisting fails nothing
    is sent to the room and only the sender gets an [error] event. *)
Theorem send_message_persist_then_broadcast s sid data :
  let room := smd_roomId data in
  let input := {| mc_content := smd_message data;
                  mc_type := default "text" (smd_type data);
                  mc_imageUrl := smd_imageUrl data;
                  mc_roomId := room;
                  mc_userId := smd_userId data |} in
  let r := on_send_message sid data s in
  match message_create (db s) input with
  | Some (record, db') =>
      r.1 = set_db db' s
      ∧ r.2 = [Emit (ToRoom room) "new-message" record]
      ∧ (∀ c, joined s c room → delivered r.1 c r.2 = r.2)
      ∧ (∀ c, ¬ joined s c room → delivered r.1 c r.2 = [])
      ∧ (joined s sid room → delivered r.1 sid r.2 = r.2)
  | None =>
      r.1 = s
      ∧ r.2 = [Emit (ToSocket sid) "error"
                 (JObject [("message", JString "Failed to save message")])]
      ∧ (∀ c, c ≠ sid → delivered r.1 c r.2 = [])
      ∧ (∀ c, c ∈ dom (sids s) → delivered r.1 c r.2 = if decide (c = sid) then r.2 else [])
  end.
Proof.
  intros room input r. unfold r, on_send_message. fold room. fold input.
  destruct (message_create (db s) input) as [[record db']|]; simpl.
  - assert (∀ c, joined s c room →
              delivered (set_db db' s) c [Emit (ToRoom room) "new-message" record]
              = [Emit (ToRoom room) "new-message" record]) as Hin.
    { intros c Hc. rewrite delivered_singleton. simpl.
      rewrite decide_True; [done|]. by apply (elem_of_receivers_room s). }
    repeat split; try done; auto.
    intros c Hc. rewrite delivered_singleton. simpl.
    rewrite decide_False; [done|]. intros Hr. apply Hc.
    by apply (elem_of_receivers_room s).
  - repeat split; try done.
    + intros c Hc. rewrite delivered_singleton. simpl.
      rewrite decide_False; [done|]. set_solver.
    + intros c Hc. rewrite delivered_singleton. simpl.
      destruct (decide (c = sid)) as [->|Hne].
      * rewrite decide_True; [done|]. set_solver.
      * rewrite decide_False; [done|]. set_solver.
Qed.

(** *** Presence: leave and disconnect *)

Lemma presence_leave_lookup roomId userId ou room :
  default ∅ (presence_leave roomId userId ou !! room)
  = if decide (roomId = room) then default ∅ (ou !! room) ∖ {[userId]}
    else default ∅ (ou !! room).
Proof.
  unfold presence_leave. destruct (decide (roomId = room)) as [<-|Hne].
  - rewrite lookup_alter_eq. destruct (ou !! roomId) as [users|] eqn:Hou; simpl.
    + case_decide as Hsz.
      * rewrite lookup_delete_eq. simpl. apply size_empty_inv in Hsz.
        by apply leibniz_equiv in Hsz.
      * by rewrite lookup_alter_eq, Hou.
    + rewrite lookup_alter_eq, Hou. simpl. set_solver.
  - assert (alter (λ users, users ∖ {[userId]}) roomId ou !! room = ou !! room) as Hother
      by by rewrite lookup_alter_ne.
    destruct (alter _ roomId ou !! roomId); [|by rewrite Hother].
    case_decide; [|by rewrite Hother].
    by rewrite lookup_delete_ne, Hother.
Qed.

Lemma disconnect_fold userId ou0 out0 ou :
  ou ⊆ ou0 →
  let r := map_fold (disconnect_room userId) (ou0, out0) ou in
  (∀ room, r.1 !! room = match ou !! room with
                         | Some users => users_without userId users
                         | None => ou0 !! room
                         end)
  ∧ (∀ t, length (filter (λ em, em_target em = t) r.2)
          = length (filter (λ em, em_target em = t) out0)
            + match t with
              | ToRoom room => offline_count userId (ou !! room)
              | _ => 0
              end)
  ∧ (Forall (offline_to_room userId) out0 → Forall (offline_to_room userId) r.2).
Proof.
  simpl.
  apply (map_fold_weak_ind
    (λ (r : gmap string (gset string) * list Emission) (m : gmap string (gset string)),
       m ⊆ ou0 →
       (∀ room, r.1 !! room = match m !! room with
                              | Some users => users_without userId users
                              | None => ou0 !! room
                              end)
       ∧ (∀ t, length (filter (λ em, em_target em = t) r.2)
               = length (filter (λ em, em_target em = t) out0)
                 + match t with
                   | ToRoom room => offline_count userId (m !! room)
                   | _ => 0
                   end)
       ∧ (Forall (offline_to_room userId) out0 → Forall (offline_to_room userId) r.2))).
  - intros _. simpl. repeat split; try done.
    intros t. destruct t; simpl; rewrite ?lookup_empty; simpl; lia.
  - intros room users m [acc out] Hfresh IH Hsub.
    assert (ou0 !! room = Some users) as Hroom.
    { eapply lookup_weaken; [|exact Hsub]. apply lookup_insert_eq. }
    destruct IH as (IHmap & IHcount & IHall).
    { etrans; [|exact Hsub]. by apply insert_subseteq. }
    simpl in *. unfold disconnect_room. simpl.
    destruct (decide (userId ∈ users)) as [Hin|Hout]; simpl.
    + repeat split.
      * intros room'. destruct (decide (room = room')) as [<-|Hne].
        -- rewrite lookup_insert_eq. unfold users_without.
           rewrite (decide_True (P := userId ∈ users)) by done.
           case_decide; [apply lookup_delete_eq|apply lookup_insert_eq].
        -- rewrite (lookup_insert_ne m) by done. rewrite <- IHmap.
           case_decide; [by apply lookup_delete_ne|by apply lookup_insert_ne].
      * intros t. rewrite filter_app, length_app, IHcount.
        rewrite filter_cons, filter_nil. simpl.
        destruct t as [|room'|room' c|c]; simpl; try lia.
        destruct (decide (room = room')) as [<-|Hne].
        -- rewrite decide_True by done. rewrite lookup_insert_eq, Hfresh. simpl.
           rewrite decide_True by done. lia.
        -- rewrite decide_False by congruence. rewrite lookup_insert_ne by done.
           simpl. lia.
      * intros Hall. apply Forall_app. split; [auto|].
        apply Forall_singleton. unfold offline_to_room. simpl. eauto.
    + repeat split.
      * intros room'. destruct (decide (room = room')) as [<-|Hne].
        -- rewrite lookup_insert_eq. unfold users_without. rewrite decide_False by done.
           by rewrite IHmap, Hfresh.
        -- rewrite (lookup_insert_ne m) by done. apply IHmap.
      * intros t. rewrite IHcount. destruct t as [|room'|room' c|c]; simpl; try done.
        destruct (decide (room = room')) as [<-|Hne].
        -- rewrite lookup_insert_eq, Hfresh. simpl. by rewrite decide_False.
        -- by rewrite lookup_insert_ne.
      * done.
Qed.

Lemma disconnect_rooms_lookup userId ou room :
  (disconnect_rooms userId ou).1 !! room = ou !! room ≫= users_without userId.
Proof.
  destruct (disconnect_fold userId ou [] ou) as (Hmap & _); [done|].
  unfold disconnect_rooms. rewrite Hmap. by destruct (ou !! room).
Qed.

Lemma disconnect_rooms_members userId ou room :
  default ∅ ((disconnect_rooms userId ou).1 !! room) = default ∅ (ou !! room) ∖ {[userId]}.
Proof.
  rewrite disconnect_rooms_lookup. destruct (ou !! room) as [users|]; simpl.
  - unfold users_without. repeat case_decide; simpl.
    + match goal with Hs : size _ = 0 |- _ => apply size_empty_inv in Hs;
        apply leibniz_equiv in Hs; by rewrite Hs end.
    + done.
    + set_solver.
  - set_solver.
Qed.

Lemma disconnect_rooms_count userId ou t :
  length (filter (λ em, em_target em = t) (disconnect_rooms userId ou).2)
  = match t with
    | ToRoom room => if decide (userId ∈ default ∅ (ou !! room)) then 1 else 0
    | _ => 0
    end.
Proof.
  destruct (disconnect_fold userId ou [] ou) as (_ & Hcount & _); [done|].
  unfold disconnect_rooms. rewrite Hcount. simpl.
  destruct t as [|room| |]; try done.
  unfold offline_count. destruct (ou !! room) as [users|]; simpl; [done|].
  rewrite decide_False; [done|set_solver].
Qed.

Lemma disconnect_rooms_events userId ou :
  Forall (offline_to_room userId) (disconnect_rooms userId ou).2.
Proof.
  destruct (disconnect_fold userId ou [] ou) as (_ & _ & Hall); [done|].
  by apply Hall.
Qed.

Lemma disconnect_rooms_absent userId ou :
  (∀ room, userId ∉ default ∅ (ou !! room)) →
  disconnect_rooms userId ou = (ou, []).
Proof.
  intros Habs.
  assert ((disconnect_rooms userId ou).1 = ou) as Hmap.
  { apply map_eq. intros room. rewrite disconnect_rooms_lookup.
    specialize (Habs room). destruct (ou !! room) as [users|]; simpl in *; [|done].
    unfold users_without. by rewrite decide_False. }
  assert ((disconnect_rooms userId ou).2 = []) as Hout.
  { destruct (disconnect_rooms userId ou).2 as [|em out] eqn:Hout; [done|].
    pose proof (disconnect_rooms_events userId ou) as Hall. rewrite Hout in Hall.
    apply Forall_cons in Hall as [(_ & _ & room & Ht) _].
    pose proof (disconnect_rooms_count userId ou (ToRoom room)) as Hc.
    rewrite Hout, filter_cons, decide_True in Hc by done. simpl in Hc.
    rewrite decide_False in Hc by apply Habs. lia. }
  destruct (disconnect_rooms userId ou); simpl in *; congruence.
Qed.

Lemma filter_length_mono {A} (P Q : A → Prop) `{∀ x, Decision (P x)} `{∀ x, Decision (Q x)}
    (l : list A) :
  (∀ x, P x → Q x) → (length (filter P l) ≤ length (filter Q l))%nat.
Proof.
  intros HPQ. induction l as [|x l IH]; [done|].
  rewrite !filter_cons. destruct (decide (P x)) as [HP|HP].
  - rewrite decide_True by auto. simpl. lia.
  - case_decide; simpl; lia.
Qed.

Lemma bound_identity_live s sid r :
  bound_identity (set_sids r s) sid = bound_identity s sid.
Proof. done. Qed.

Lemma delivered_app s c out1 out2 :
  delivered s c (out1 ++ out2) = delivered s c out1 ++ delivered s c out2.
Proof. apply filter_app. Qed.

Lemma delivered_room_count s c room out :
  joined s c room →
  (length (filter (λ em, em_target em = ToRoom room) out) ≤ length (delivered s c out))%nat.
Proof.
  intros Hjoined. apply filter_length_mono.
  intros em ->. by apply elem_of_receivers_room.
Qed.

Lemma step_disconnect_bound s sid userId :
  is_Some (sids s !! sid) →
  bound_identity s sid = Some userId →
  step s (Disconnect sid)
  = (mkState (disconnect_rooms userId (onlineUsers s)).1 (delete sid (userSockets s))
       (delete sid (sids s)) (db s),
     (disconnect_rooms userId (onlineUsers s)).2
       ++ [Emit ToAll "user_offline" (JString userId)]).
Proof.
  intros [rs Hlive] Hbound. unfold step. rewrite Hlive.
  unfold on_disconnect. by rewrite bound_identity_live, Hbound.
Qed.

(** C5, as the code has it.  The disconnect of a connection bound to an
    identity takes the identity out of every presence set, sends exactly one
    offline packet to each room that held it and none to the others, and
    then one more offline packet to every connection of the relay; a
    connection in an affected room therefore receives at least two.  When
    no room held the identity the presence map is unchanged and only the
    relay-wide packet is sent. *)
Theorem disconnect_offline_notifications s sid userId :
  is_Some (sids s !! sid) →
  bound_identity s sid = Some userId →
  let r := step s (Disconnect sid) in
  (∀ room, presence r.1 room = presence s room ∖ {[userId]})
  ∧ userSockets r.1 = delete sid (userSockets s)
  ∧ sids r.1 = delete sid (sids s)
  ∧ (∀ room, length (filter (λ em, em_target em = ToRoom room) r.2)
             = if decide (userId ∈ presence s room) then 1 else 0)
  ∧ length (filter (λ em, em_target em = ToAll) r.2) = 1
  ∧ Forall (λ em, is_offline userId em
                  ∧ (em_target em = ToAll ∨ ∃ room, em_target em = ToRoom room)) r.2
  ∧ (∀ c room, joined r.1 c room → userId ∈ presence s room →
               (2 ≤ length (delivered r.1 c r.2))%nat)
  ∧ ((∀ room, userId ∉ presence s room) →
     onlineUsers r.1 = onlineUsers s
     ∧ r.2 = [Emit ToAll "user_offline" (JString userId)]).
Proof.
  intros Hlive Hbound r. subst r.
  rewrite (step_disconnect_bound s sid userId Hlive Hbound).
  set (ou := onlineUsers s).
  set (s' := mkState _ _ _ _). simpl fst. simpl snd.
  split_and!.
  - intros room. unfold presence. simpl. apply disconnect_rooms_members.
  - done.
  - done.
  - intros room. rewrite filter_app, length_app, disconnect_rooms_count.
    rewrite filter_cons, filter_nil. simpl. unfold presence. fold ou.
    case_decide; lia.
  - rewrite filter_app, length_app, disconnect_rooms_count.
    rewrite filter_cons, filter_nil. simpl. done.
  - apply Forall_app. split.
    + eapply Forall_impl; [apply disconnect_rooms_events|].
      intros em (Hev & Hpay & Hto). unfold is_offline. eauto.
    + apply Forall_singleton. unfold is_offline. simpl. eauto.
  - intros c room Hjoined Hpresent.
    rewrite delivered_app, length_app, delivered_singleton.
    destruct (decide (c ∈ receivers s' (em_target (Emit ToAll "user_offline" (JString userId)))))
      as [_|Hnot]; [|destruct Hnot; exact (joined_connected s' c room Hjoined)].
    pose proof (delivered_room_count s' c room (disconnect_rooms userId ou).2 Hjoined) as Hle.
    rewrite disconnect_rooms_count in Hle. unfold presence in Hpresent. fold ou in Hpresent.
    rewrite decide_True in Hle by done. simpl. lia.
  - intros Habs. unfold s'. simpl. rewrite disconnect_rooms_absent by exact Habs. done.
Qed.

(** *** One step of the presence tracker *)

Lemma presence_connection s sid room :
  presence (step s (Connection sid)).1 room = presence s room.
Proof. unfold step. by destruct (sids s !! sid). Qed.

Lemma roster_answer_state s room : (step s (RosterAnswer room)).1 = s.
Proof. simpl. unfold on_join_room_answer. by destruct (roomMember_findMany _ _). Qed.

Lemma presence_handle s sid m room :
  presence (handle sid m s).1 room
  = match m, bound_identity s sid with
    | JoinRoom roomId, Some userId =>
        if decide (roomId = room) then presence s room ∪ {[userId]} else presence s room
    | LeaveRoom roomId, Some userId =>
        if decide (roomId = room) then presence s room ∖ {[userId]} else presence s room
    | _, _ => presence s room
    end.
Proof.
  unfold presence. destruct m; simpl; try done.
  - rewrite on_join_room_onlineUsers.
    destruct (bound_identity s sid); [|done]. apply presence_join_lookup.
  - unfold on_leave_room. destruct (bound_identity s sid); [|done].
    simpl. apply presence_leave_lookup.
  - unfold on_send_message. by destruct (message_create _ _) as [[??]|].
Qed.

Lemma presence_disconnect s sid room :
  presence (on_disconnect sid s).1 room
  = match bound_identity s sid with
    | Some userId => presence s room ∖ {[userId]}
    | None => presence s room
    end.
Proof.
  unfold on_disconnect. destruct (bound_identity s sid); [|done].
  unfold presence. simpl. apply disconnect_rooms_members.
Qed.

Lemma presence_step_iff s e room userId :
  userId ∈ presence (step s e).1 room
  ↔ joins_presence s e room userId
    ∨ (userId ∈ presence s room ∧ ¬ leaves_presence s e room userId).
Proof.
  unfold joins_presence, leaves_presence.
  destruct e as [sid|sid m|sid|roomId].
  4: { rewrite roster_answer_state. split.
       - intros Hin. right. split; [done|]. by intros (? & [?|?] & _).
       - by intros [(? & ? & _)|[? _]]. }
  - rewrite presence_connection. split.
    + intros Hin. right. split; [done|]. by intros (? & [?|?] & _).
    + by intros [(? & ? & _)|[? _]].
  - unfold step. destruct (sids s !! sid) as [rs|] eqn:Hlive.
    + rewrite presence_handle. destruct m as [u|roomId|roomId| | | | | |].
      3: { (* leave-room *)
        destruct (bound_identity s sid) as [u|] eqn:Hb.
        - case_decide as Hroom.
          + subst roomId. rewrite elem_of_difference, elem_of_singleton. split.
            * intros [Hin Hne]. right. split; [done|].
              intros (sid' & [Heq|Heq] & _ & Hb'); simplify_eq.
            * intros [(sid' & Heq & _)|[Hin Hnot]]; [simplify_eq|].
              split; [done|]. intros ->. apply Hnot. exists sid. eauto.
          + split.
            * intros Hin. right. split; [done|].
              intros (sid' & [Heq|Heq] & _); simplify_eq.
            * by intros [(sid' & Heq & _)|[Hin _]]; [simplify_eq|].
        - split.
          + intros Hin. right. split; [done|].
            intros (sid' & [Heq|Heq] & _ & Hb'); simplify_eq.
          + by intros [(sid' & Heq & _)|[Hin _]]; [simplify_eq|]. }
      2: { (* join-room *)
        destruct (bound_identity s sid) as [u|] eqn:Hb.
        - case_decide as Hroom.
          + subst roomId. rewrite elem_of_union, elem_of_singleton. split.
            * intros [Hin| ->]; [|left; exists sid; eauto].
              right. split; [done|]. intros (sid' & [Heq|Heq] & _); simplify_eq.
            * intros [(sid' & Heq & _ & Hb')|[Hin _]]; [simplify_eq; by right|by left].
          + split.
            * intros Hin. right. split; [done|].
              intros (sid' & [Heq|Heq] & _); simplify_eq.
            * by intros [(sid' & Heq & _)|[Hin _]]; [simplify_eq|].
        - split.
          + intros Hin. right. split; [done|].
            intros (sid' & [Heq|Heq] & _); simplify_eq.
          + by intros [(sid' & Heq & _ & Hb')|[Hin _]]; [simplify_eq|]. }
      all: split;
        [ intros Hin; right; split; [done|]; intros (sid' & [Heq|Heq] & _); simplify_eq
        | by intros [(sid' & Heq & _)|[Hin _]]; [simplify_eq|] ].
    + split.
      * intros Hin. right. split; [done|].
        intros (sid' & [Heq|Heq] & [rs Hrs] & _); simplify_eq.
      * by intros [(sid' & Heq & [rs Hrs] & _)|[Hin _]]; [simplify_eq|].
  - unfold step. destruct (sids s !! sid) as [rs|] eqn:Hlive.
    + rewrite presence_disconnect, bound_identity_live.
      destruct (bound_identity s sid) as [u|] eqn:Hb.
      * rewrite elem_of_difference, elem_of_singleton. split.
        -- intros [Hin Hne]. right. split; [done|].
           intros (sid' & [Heq|Heq] & _ & Hb'); simplify_eq.
        -- intros [(sid' & Heq & _)|[Hin Hnot]]; [simplify_eq|].
           split; [done|]. intros ->. apply Hnot. exists sid. eauto.
      * split.
        -- intros Hin. right. split; [done|].
           intros (sid' & [Heq|Heq] & _ & Hb'); simplify_eq.
        -- by intros [(sid' & Heq & _)|[Hin _]]; [simplify_eq|].
    + split.
      * intros Hin. right. split; [done|].
        intros (sid' & [Heq|Heq] & [rs Hrs] & _); simplify_eq.
      * by intros [(sid' & Heq & _)|[Hin _]]; [simplify_eq|].
Qed.

(** C2, as the code has it.  Presence is kept per identity, not per
    connection: after an event an identity is in a room's presence set
    exactly when the event is a [join-room] for that room under that
    identity, or the identity was there before and the event is neither a
    [leave-room] for that room nor a disconnect under that identity.  So
    when an identity has two connections in a room and one of them
    disconnects or leaves, the identity is out of the presence set while the
    other connection is still joined. *)
Theorem presence_tracks_identities s :
  (∀ e room userId,
     userId ∈ presence (step s e).1 room
     ↔ joins_presence s e room userId
       ∨ (userId ∈ presence s room ∧ ¬ leaves_presence s e room userId))
  ∧ (∀ sid other room userId,
       is_Some (sids s !! sid) → bound_identity s sid = Some userId →
       other ≠ sid → userSockets s !! other = Some userId → joined s other room →
       ((userId ∉ presence (step s (Disconnect sid)).1 room)
        ∧ has_active_join (step s (Disconnect sid)).1 room userId)
       ∧ ((userId ∉ presence (step s (Receive sid (LeaveRoom room))).1 room)
          ∧ has_active_join (step s (Receive sid (LeaveRoom room))).1 room userId)).
Proof.
  split; [intros; apply presence_step_iff|].
  intros sid other room userId Hlive Hbound Hne Hother Hjoined. split; split.
  - rewrite presence_step_iff. unfold joins_presence, leaves_presence. naive_solver.
  - exists other. destruct Hlive as [rs Hlive]. unfold step. rewrite Hlive.
    unfold on_disconnect. rewrite bound_identity_live, Hbound. simpl. split.
    + by rewrite lookup_delete_ne.
    + destruct Hjoined as (rs' & Hrs' & Hin). exists rs'. simpl.
      by rewrite lookup_delete_ne.
  - rewrite presence_step_iff. unfold joins_presence, leaves_presence. naive_solver.
  - exists other. destruct Hlive as [rs Hlive]. unfold step. rewrite Hlive.
    simpl. unfold on_leave_room. rewrite Hbound. simpl. split; [done|].
    destruct Hjoined as (rs' & Hrs' & Hin). exists rs'. simpl.
    by rewrite lookup_alter_ne.
Qed.

(** *** Presence and the durable roster *)

Lemma db_step_presence_event s e : presence_event e → db (step s e).1 = db s.
Proof.
  destruct e as [sid|sid m|sid|roomId]; intros Hev;
    [simpl in *..|by rewrite roster_answer_state].
  - by destruct (sids s !! sid).
  - destruct (sids s !! sid); [|done]. destruct m; try done; simpl.
    + unfold on_join_room. by destruct (bound_identity s sid).
    + unfold on_leave_room. by destruct (bound_identity s sid).
  - destruct (sids s !! sid); [|done]. unfold on_disconnect.
    rewrite bound_identity_live. by destruct (bound_identity s sid).
Qed.

Lemma run_cons s e trace : run s (e :: trace) = run (step s e).1 trace.
Proof. done. Qed.

Lemma presence_in_roster_run s trace :
  Forall presence_event trace →
  joins_by_members s trace →
  (∀ room userId, userId ∈ presence s room → in_roster (db s) room userId) →
  ∀ room userId, userId ∈ presence (run s trace) room → in_roster (db s) room userId.
Proof.
  revert s. induction trace as [|e trace IH]; intros s Hev Hjoins Hinv; [done|].
  apply Forall_cons in Hev as [He Hev]. destruct Hjoins as [Hjoin Hjoins].
  rewrite run_cons. rewrite <- (db_step_presence_event s e He).
  apply IH; [done|done|].
  intros room userId Hin. rewrite (db_step_presence_event s e He).
  apply presence_step_iff in Hin as [(sid & -> & Hlive & Hbound)|[Hin _]]; [|auto].
  by apply Hjoin.
Qed.

(** C1, as the code has it.  [join-room] does not consult the durable
    roster.  Over the events of the presence tracker, started from the empty
    relay, the presence set of every room is inside the room's durable
    roster as long as every [join-room] that takes effect is issued under an
    identity that is on that roster. *)
Theorem presence_within_roster_of_member_joins (d : DB) trace :
  Forall presence_event trace →
  joins_by_members (init d) trace →
  ∀ room userId, userId ∈ presence (run (init d) trace) room → in_roster d room userId.
Proof.
  intros Hev Hjoins. apply (presence_in_roster_run (init d)); [done|done|].
  intros room userId. unfold presence. simpl. rewrite lookup_empty. set_solver.
Qed.

(** *** Operations before [identify] *)

Lemma bound_identity_None s sid :
  bound_identity s sid = None ↔ userSockets s !! sid = None ∨ userSockets s !! sid = Some "".
Proof.
  unfold bound_identity. destruct (userSockets s !! sid) as [u|]; [|naive_solver].
  case_decide; naive_solver.
Qed.

Lemma join_leave_ignored_unbound s sid room :
  bound_identity s sid = None →
  handle sid (JoinRoom room) s = (s, []) ∧ handle sid (LeaveRoom room) s = (s, []).
Proof. intros Hb. simpl. unfold on_join_room, on_leave_room. by rewrite Hb. Qed.

(** *** Signaling relay *)

Lemma lookup_field_signal k u body :
  lookup_field "targetUserId" [("userId", u); (signal_field k, body)] = JUndefined.
Proof. by destruct k. Qed.

(** C10. The relay sends an offer, an answer or a candidate to the whole
    call channel of the room, the sender's connection included when it is in
    the channel, and the packet holds the sender identity and the signaling
    payload only: the [targetUserId] the sender supplied is not forwarded. *)
Theorem signal_relay_echoes_without_target s sid k data :
  let channel := video_channel (sd_roomId data) in
  let r := handle sid (Signal k data) s in
  r.1 = s
  ∧ r.2 = [Emit (ToRoom channel) (signal_event k)
             (JObject [("userId", JString (sd_userId data));
                       (signal_field k, sd_body data)])]
  ∧ Forall (λ em, field_names (em_payload em) = ["userId"; signal_field k]
                  ∧ get_field "targetUserId" (em_payload em) = JUndefined) r.2
  ∧ (∀ target, handle sid (Signal k {| sd_roomId := sd_roomId data;
                                       sd_userId := sd_userId data;
                                       sd_targetUserId := target;
                                       sd_body := sd_body data |}) s = r)
  ∧ (∀ c, joined s c channel → delivered r.1 c r.2 = r.2)
  ∧ (∀ c, ¬ joined s c channel → delivered r.1 c r.2 = [])
  ∧ (joined s sid channel → delivered r.1 sid r.2 = r.2).
Proof.
  intros channel r. unfold r. simpl. unfold on_signal. fold channel. simpl.
  assert (∀ c, joined s c channel →
            delivered s c [Emit (ToRoom channel) (signal_event k)
                             (JObject [("userId", JString (sd_userId data));
                                       (signal_field k, sd_body data)])]
            = [Emit (ToRoom channel) (signal_event k)
                 (JObject [("userId", JString (sd_userId data));
                           (signal_field k, sd_body data)])]) as Hin.
  { intros c Hc. rewrite delivered_singleton. simpl.
    rewrite decide_True; [done|]. by apply elem_of_receivers_room. }
  split_and!; try done; auto.
  - apply Forall_singleton. split; [done|]. exact (lookup_field_signal k _ _).
  - intros c Hc. rewrite delivered_singleton. simpl.
    rewrite decide_False; [done|]. intros Hr. apply Hc.
    by apply elem_of_receivers_room.
Qed.

End ServerFacts.

Section ClientFacts.
Context {browser : VideoChat.Browser} (props : VideoChat.Props).

Lemma on_event_ice_candidate view payload :
  VideoChat.on_event props view "ice-candidate" payload
  = VideoChat.on_ice_candidate view payload.
Proof. done. Qed.

Lemma on_event_video_offer view payload :
  VideoChat.on_event props view "video-offer" payload
  = VideoChat.on_video_offer props view payload.
Proof. done. Qed.

(** The guard of the [ice-candidate] handler, [if (peerConnection)], is on
    the [peers] the handler closes over: a candidate for a peer identity
    that has no entry there is dropped, the handler completes normally, the
    state of the component and of its connections is unchanged and nothing
    is sent. *)
Lemma ice_candidate_without_link_dropped view payload st :
  VideoChat.v_peers view !! js_to_string (get_field "userId" payload) = None →
  VideoChat.on_event props view "ice-candidate" payload st
  = (st, [], VideoChat.Normal ()).
Proof.
  intros Hnone. rewrite on_event_ice_candidate.
  unfold VideoChat.on_ice_candidate. by rewrite Hnone.
Qed.

(** The offer handler reads [userId] and [offer] only and answers whoever
    the packet is from. *)
Lemma video_offer_creates_link view payload st :
  let peerId := get_field "userId" payload in
  let r := VideoChat.on_event props view "video-offer" payload st in
  VideoChat.peers r.1.1 !! js_to_string peerId = Some (length (VideoChat.connections st))
  ∧ (r.2 = VideoChat.Normal () →
     ∃ answer, r.1.2 = [VideoChat.signal props Answer peerId answer]).
Proof.
  intros peerId r. unfold r. rewrite on_event_video_offer.
  unfold VideoChat.on_video_offer. fold peerId.
  unfold VideoChat.createPeerConnection, VideoChat.with_connection.
  unfold mbind, VideoChat.M_bind, VideoChat.bind, VideoChat.read, VideoChat.setConnections,
    VideoChat.setPeers, VideoChat.update, VideoChat.ret, VideoChat.await, VideoChat.emit.
  simpl.
  rewrite lookup_app_r by done. rewrite Nat.sub_diag. simpl.
  destruct (VideoChat.setDescription _ _) as [[]|e1]; simpl;
    [|split; [apply lookup_insert_eq|done]].
  rewrite list_lookup_insert_eq by (rewrite ?length_insert, length_app; simpl; lia).
  destruct (VideoChat.createAnswer _) as [answer|e2]; simpl;
    [|split; [apply lookup_insert_eq|done]].
  rewrite list_lookup_insert_eq by (rewrite ?length_insert, length_app; simpl; lia).
  destruct (VideoChat.setDescription _ _) as [[]|e3]; simpl;
    (split; [apply lookup_insert_eq|]); [|done].
  intros _. by exists answer.
Qed.

End ClientFacts.

Section AudioOnly.
Context {browser : VideoChat.Browser} {DB : Type} {storage : Storage DB}.

(** C6, as the code has it.  When the camera cannot be acquired and the
    microphone can, the component enters audio-only mode and sends
    [join-video-chat] with [isAudioOnly = true]; the relay forwards the
    identity alone in [user-joined-video], the same packet as for a peer
    with a camera, and a remote tile shows the audio-only placeholder
    exactly when the stream received from the peer has no video track. *)
Theorem audio_only_fallback_not_relayed props probe err stream st (s : State DB) sid :
  VideoChat.getUserMedia {| VideoChat.c_audio := VideoChat.Any;
                            VideoChat.c_video := VideoChat.Off |} = VideoChat.Normal probe →
  VideoChat.getUserMedia {| VideoChat.c_audio := VideoChat.Off;
                            VideoChat.c_video := VideoChat.Any |} = VideoChat.Throw err →
  VideoChat.getUserMedia {| VideoChat.c_audio := VideoChat.Tuned;
                            VideoChat.c_video := VideoChat.Off |} = VideoChat.Normal stream →
  let r := VideoChat.initializeMediaStream props st in
  let join flag := JoinVideoChat (VideoChat.roomId props) (VideoChat.userId props) flag in
  VideoChat.isAudioOnly r.1.1 = true
  ∧ VideoChat.localStream r.1.1 = Some stream
  ∧ VideoChat.error r.1.1 = None
  ∧ VideoChat.local_tile r.1.1 = VideoChat.AudioOnlyPlaceholder
  ∧ r.1.2 = [join true]
  ∧ r.2 = VideoChat.Normal ()
  ∧ (handle sid (join true) s).2
    = [Emit (ToOthers (video_channel (VideoChat.roomId props)) sid) "user-joined-video"
         (JObject [("userId", JString (VideoChat.userId props))])]
  ∧ handle sid (join true) s = handle sid (join false) s
  ∧ (∀ remote, VideoChat.remote_tile remote = VideoChat.AudioOnlyPlaceholder
               ↔ VideoChat.videoTracks remote = 0).
Proof.
  intros Hmic Hcam Hstream r join. unfold r, VideoChat.initializeMediaStream.
  unfold VideoChat.try_catch, mbind, VideoChat.M_bind, VideoChat.bind, VideoChat.await,
    VideoChat.checkMediaDevices.
  rewrite Hmic, Hcam. simpl. rewrite Hstream. simpl.
  split_and!; try done.
  intros remote. unfold VideoChat.remote_tile. case_decide; split; try done; lia.
Qed.

End AudioOnly.

(** ** The properties on the worked examples *)

Import Examples.

Lemma lobby_of_two_joined : joined lobby_of_two "c2" "lobby".
Proof. eexists. split; [vm_compute; reflexivity|]. vm_compute. reflexivity. Qed.

Lemma join_room_twice_presence_witness :
  bound_identity alice_identified "c1" = bound_identity alice_identified "c2"
  ∧ (let s1 := (on_join_room "c1" "lobby" alice_identified).1 in
     let s2 := (on_join_room "c2" "lobby" s1).1 in
     onlineUsers s2 = onlineUsers s1
     ∧ presence s2 "lobby" = presence s1 "lobby"
     ∧ size (presence s2 "lobby") = size (presence s1 "lobby")).
Proof.
  split; [vm_compute; reflexivity|].
  apply (join_room_twice_presence alice_identified "c1" "c2" "lobby").
  vm_compute; reflexivity.
Defined.

(** [alice] says [hi] in [lobby]: the stored record goes to [c1] and [c2];
    with the storage down, [c1] alone gets the [error] event. *)
Lemma send_message_persist_then_broadcast_witness :
  (let r := on_send_message "c1" hello lobby_of_two in
   r.2 = [Emit (ToRoom "lobby") "new-message"
            (mem_record 0 {| mc_content := "hi"; mc_type := "text"; mc_imageUrl := None;
                             mc_roomId := "lobby"; mc_userId := "alice" |})]
   ∧ delivered r.1 "c2" r.2 = r.2
   ∧ delivered r.1 "c1" r.2 = r.2)
  ∧ (let r := on_send_message "c1" hello lobby_down in
     r.1 = lobby_down
     ∧ delivered r.1 "c2" r.2 = []
     ∧ delivered r.1 "c1" r.2
       = [Emit (ToSocket "c1") "error"
            (JObject [("message", JString "Failed to save message")])]).
Proof.
  split.
  - pose proof (send_message_persist_then_broadcast lobby_of_two "c1" hello) as Hsend.
    cbv zeta in Hsend.
    change (message_create (db lobby_of_two) _)
      with (Some (mem_record 0 {| mc_content := "hi"; mc_type := "text";
                                  mc_imageUrl := None; mc_roomId := "lobby";
                                  mc_userId := "alice" |},
                  {| md_members := md_members db_lobby;
                     md_messages := [mem_record 0 {| mc_content := "hi"; mc_type := "text";
                                                     mc_imageUrl := None;
                                                     mc_roomId := "lobby";
                                                     mc_userId := "alice" |}];
                     md_up := true |})) in Hsend.
    destruct Hsend as (_ & Hout & Hin & _ & _).
    cbv zeta. split; [exact Hout|]. split.
    + apply Hin. exact lobby_of_two_joined.
    + apply Hin. eexists. split; [vm_compute; reflexivity|]. vm_compute. reflexivity.
  - pose proof (send_message_persist_then_broadcast lobby_down "c1" hello) as Hsend.
    cbv zeta in Hsend.
    change (message_create (db lobby_down) _) with (@None (JsValue * MemDb)) in Hsend.
    destruct Hsend as (Hstate & Hout & Hothers & Hlive).
    cbv zeta. split; [exact Hstate|]. split.
    + by apply Hothers.
    + rewrite (Hlive "c1"); [|vm_compute; reflexivity].
      rewrite decide_True by done. exact Hout.
Defined.

(** [alice] on [c1] disconnects from the lobby she shares with [bob]. *)
Lemma disconnect_offline_notifications_witness :
  is_Some (sids lobby_of_two !! "c1")
  ∧ bound_identity lobby_of_two "c1" = Some "alice"
  ∧ (let r := step lobby_of_two (Disconnect "c1") in
     presence r.1 "lobby" = presence lobby_of_two "lobby" ∖ {["alice"]}
     ∧ length (filter (λ em, em_target em = ToRoom "lobby") r.2) = 1
     ∧ length (filter (λ em, em_target em = ToAll) r.2) = 1
     ∧ (2 ≤ length (delivered r.1 "c2" r.2))%nat).
Proof.
  assert (is_Some (sids lobby_of_two !! "c1")) as Hlive
    by (eexists; vm_compute; reflexivity).
  assert (bound_identity lobby_of_two "c1" = Some "alice") as Hbound
    by (vm_compute; reflexivity).
  split; [exact Hlive|]. split; [exact Hbound|].
  destruct (disconnect_offline_notifications lobby_of_two "c1" "alice" Hlive Hbound)
    as (Hpres & _ & _ & Hroom & Hall & _ & Htwo & _).
  cbv zeta. split; [apply Hpres|]. split.
  - rewrite Hroom. apply decide_True. vm_compute. reflexivity.
  - split; [exact Hall|]. apply (Htwo "c2" "lobby").
    + eexists. split; [vm_compute; reflexivity|]. vm_compute. reflexivity.
    + vm_compute. reflexivity.
Defined.

(** C5 fails as stated: [bob]'s connection, in the one room [alice] was
    present in, receives two offline packets for her, the one sent to the
    room and the one sent to everybody. *)
Lemma disconnect_two_offline_packets :
  let r := step lobby_of_two (Disconnect "c1") in
  "alice" ∈ presence lobby_of_two "lobby"
  ∧ joined r.1 "c2" "lobby"
  ∧ delivered r.1 "c2" r.2 = [offline_alice_lobby; offline_alice_all]
  ∧ length (delivered r.1 "c2" r.2) ≠ 1.
Proof.
  cbv zeta. split; [vm_compute; reflexivity|]. split.
  - eexists. split; [vm_compute; reflexivity|]. vm_compute. reflexivity.
  - split; [vm_compute; reflexivity|]. vm_compute. lia.
Qed.

(** [alice] and [bob], both on the roster of [lobby], join it. *)
Lemma presence_within_roster_of_member_joins_witness :
  Forall presence_event two_in_lobby
  ∧ joins_by_members (init db_lobby) two_in_lobby
  ∧ "alice" ∈ presence (run (init db_lobby) two_in_lobby) "lobby"
  ∧ in_roster db_lobby "lobby" "alice".
Proof.
  assert (Forall presence_event two_in_lobby) as Hev
    by (unfold two_in_lobby; repeat constructor).
  assert (joins_by_members (init db_lobby) two_in_lobby) as Hjoins.
  { assert (∀ u, u = "alice" ∨ u = "bob" → in_roster db_lobby "lobby" u) as Hroster.
    { intros u Hu. eexists. split; [vm_compute; reflexivity|].
      destruct Hu as [->| ->]; set_solver. }
    unfold two_in_lobby. cbn [joins_by_members]. repeat split.
    - intros u _ Hu. apply Hroster. left. vm_compute in Hu. congruence.
    - intros u _ Hu. apply Hroster. right. vm_compute in Hu. congruence. }
  assert ("alice" ∈ presence (run (init db_lobby) two_in_lobby) "lobby") as Hin
    by (vm_compute; reflexivity).
  split; [exact Hev|]. split; [exact Hjoins|]. split; [exact Hin|].
  exact (presence_within_roster_of_member_joins db_lobby two_in_lobby Hev Hjoins
           "lobby" "alice" Hin).
Defined.

(** C1 fails as stated: [mallory] is on no roster, identifies and joins
    [lobby]; she is in its presence set. *)
Lemma presence_outside_roster :
  ¬ (∀ trace room userId,
       Forall presence_event trace →
       userId ∈ presence (run (init db_empty) trace) room →
       in_roster db_empty room userId).
Proof.
  intros Hall.
  destruct (Hall outsider_joins "lobby" "mallory") as (members & Hfind & Hin).
  - unfold outsider_joins. repeat constructor.
  - vm_compute. reflexivity.
  - vm_compute in Hfind. injection Hfind as <-. set_solver.
Qed.

(** C2 fails as stated: [alice] is on [c1] and [c2], both in [lobby]; after
    [c1] disconnects she is not in the presence set although [c2] is still
    bound to her and joined. *)
Lemma presence_lost_with_live_connection :
  ¬ (∀ trace room userId,
       userId ∈ presence (run (init db_lobby) trace) room
       ↔ has_active_join (run (init db_lobby) trace) room userId).
Proof.
  intros Hall.
  destruct (Hall (alice_twice ++ [Disconnect "c1"]) "lobby" "alice") as [_ Hback].
  assert ("alice" ∈ presence (run (init db_lobby) (alice_twice ++ [Disconnect "c1"])) "lobby")
    as Hin.
  { apply Hback. exists "c2". split; [vm_compute; reflexivity|].
    eexists. split; [vm_compute; reflexivity|]. vm_compute. reflexivity. }
  vm_compute in Hin. discriminate.
Qed.

(** [alice] is on [c1] and [c2], both in [lobby]; [c1] disconnects. *)
Lemma presence_tracks_identities_witness :
  ("alice" ∉ presence (step lobby_alice_twice (Disconnect "c1")).1 "lobby")
  ∧ has_active_join (step lobby_alice_twice (Disconnect "c1")).1 "lobby" "alice".
Proof.
  destruct (presence_tracks_identities lobby_alice_twice) as [_ Hlost].
  destruct (Hlost "c1" "c2" "lobby" "alice") as [Hdisconnect _].
  - eexists. vm_compute. reflexivity.
  - vm_compute. reflexivity.
  - done.
  - vm_compute. reflexivity.
  - eexists. split; [vm_compute; reflexivity|]. vm_compute. reflexivity.
  - exact Hdisconnect.
Defined.

(** [alice] sends an offer from [ca]; the packet comes back to [ca]. *)
Lemma signal_relay_echoes_without_target_witness :
  joined call_lobby "ca" "video-lobby"
  ∧ (let r := handle "ca" (Signal Offer offer_to_bob) call_lobby in
     r.2 = [Emit (ToRoom "video-lobby") "video-offer"
              (JObject [("userId", JString "alice"); ("offer", JString "sdp-offer")])]
     ∧ delivered r.1 "ca" r.2 = r.2).
Proof.
  assert (joined call_lobby "ca" "video-lobby") as Hjoined.
  { eexists. split; [vm_compute; reflexivity|]. vm_compute. reflexivity. }
  split; [exact Hjoined|].
  destruct (signal_relay_echoes_without_target call_lobby "ca" Offer offer_to_bob)
    as (_ & Hout & _ & _ & _ & _ & Hecho).
  cbv zeta. split; [exact Hout|]. apply Hecho. exact Hjoined.
Defined.

(** A candidate from [bob] reaches [carol] before any offer did. *)
Lemma ice_candidate_without_link_dropped_witness :
  VideoChat.v_peers (VideoChat.view_of VideoChat.initial)
    !! js_to_string (get_field "userId" candidate_from_bob) = None
  ∧ VideoChat.on_event (browser := microphone_only) carol
      (VideoChat.view_of VideoChat.initial) "ice-candidate" candidate_from_bob
      VideoChat.initial
    = (VideoChat.initial, [], VideoChat.Normal ()).
Proof.
  split; [vm_compute; reflexivity|].
  apply (ice_candidate_without_link_dropped (browser := microphone_only)).
  vm_compute; reflexivity.
Defined.

(** [carol]'s camera is refused; she joins the call of [lobby] on [cc]. *)
Lemma audio_only_fallback_not_relayed_witness :
  let r := VideoChat.initializeMediaStream (browser := microphone_only) carol
             VideoChat.initial in
  VideoChat.isAudioOnly r.1.1 = true
  ∧ r.1.2 = [JoinVideoChat "lobby" "carol" true]
  ∧ (handle "cc" (JoinVideoChat "lobby" "carol" true) call_lobby).2
    = [Emit (ToOthers "video-lobby" "cc") "user-joined-video"
         (JObject [("userId", JString "carol")])].
Proof.
  destruct (audio_only_fallback_not_relayed (browser := microphone_only) carol
              {| VideoChat.audioTracks := 1; VideoChat.videoTracks := 0 |}
              (VideoChat.ThrownError "NotAllowedError" "Permission denied")
              {| VideoChat.audioTracks := 1; VideoChat.videoTracks := 0 |}
              VideoChat.initial call_lobby "cc" eq_refl eq_refl eq_refl)
    as (Hmode & _ & _ & _ & Hsent & _ & Hrelayed & _).
  cbv zeta. split; [exact Hmode|]. split; [exact Hsent|exact Hrelayed].
Defined.

(** C6 fails as stated: nothing the relay sends for an audio-only join
    tells the other participants that the peer is audio-only. *)
Lemma audio_only_flag_not_forwarded :
  let out := (step call_lobby (Receive "cc" (JoinVideoChat "lobby" "carol" true))).2 in
  out = [Emit (ToOthers "video-lobby" "cc") "user-joined-video"
           (JObject [("userId", JString "carol")])]
  ∧ ¬ (∃ em, em ∈ out
             ∧ (get_field "audioOnly" (em_payload em) = JBool true
                ∨ get_field "isAudioOnly" (em_payload em) = JBool true)).
Proof.
  cbv zeta. split; [vm_compute; reflexivity|].
  intros (em & Hem & Hflag).
  assert (em = Emit (ToOthers "video-lobby" "cc") "user-joined-video"
                 (JObject [("userId", JString "carol")])) as ->.
  { vm_compute in Hem. apply list_elem_of_singleton in Hem. exact Hem. }
  vm_compute in Hflag. destruct Hflag; discriminate.
Qed.

(** C4 at the failing input.  [alice], [bob] and [carol] are in the call of
    [lobby]; [alice] sends an offer addressed to [bob].  The packet the
    relay sends has no target field and reaches all three connections;
    [carol], to whom it is not addressed, does not discard it: she creates a
    link for [alice] and sends her an answer, and so does [alice] with her
    own offer. *)
Theorem offer_for_bob_answered_by_carol :
  let r := step call_lobby (Receive "ca" (Signal Offer offer_to_bob)) in
  let packet := JObject [("userId", JString "alice"); ("offer", JString "sdp-offer")] in
  r.2 = [Emit (ToRoom "video-lobby") "video-offer" packet]
  ∧ get_field "targetUserId" packet = JUndefined
  ∧ receivers r.1 (ToRoom "video-lobby") = {["ca"; "cb"; "cc"]}
  ∧ VideoChat.on_event (browser := microphone_only) carol
      (VideoChat.view_of VideoChat.initial) "video-offer" packet VideoChat.initial
    = (VideoChat.mkState {["alice" := 0]} ∅ None None false
         [{| VideoChat.pc_peer := JString "alice"; VideoChat.pc_tracks := None;
             VideoChat.pc_local := Some (JString "sdp-answer");
             VideoChat.pc_remote := Some (JString "sdp-offer");
             VideoChat.pc_candidates := []; VideoChat.pc_closed := false |}],
       [Signal Answer {| sd_roomId := "lobby"; sd_userId := "carol";
                         sd_targetUserId := JString "alice";
                         sd_body := JString "sdp-answer" |}],
       VideoChat.Normal ())
  ∧ (VideoChat.on_event (browser := microphone_only) alice
       (VideoChat.view_of VideoChat.initial) "video-offer" packet VideoChat.initial).1.2
    = [Signal Answer {| sd_roomId := "lobby"; sd_userId := "alice";
                        sd_targetUserId := JString "alice";
                        sd_body := JString "sdp-answer" |}].
Proof. cbv zeta. split_and!; vm_compute; reflexivity. Qed.

(** C7 at the failing input.  Connection [c9] never sent [identify].  Its
    [join-room] and [leave-room] are ignored, but its [send-message] under
    [alice]'s identity is stored and relayed to the room; with the storage
    down it gets the [error] event. *)
Theorem send_message_accepted_before_identify :
  bound_identity anonymous "c9" = None
  ∧ step anonymous (Receive "c9" (JoinRoom "lobby")) = (anonymous, [])
  ∧ step anonymous (Receive "c9" (LeaveRoom "lobby")) = (anonymous, [])
  ∧ (let r := step anonymous (Receive "c9" (SendMessage hello)) in
     md_messages (db r.1)
     = [mem_record 0 {| mc_content := "hi"; mc_type := "text"; mc_imageUrl := None;
                        mc_roomId := "lobby"; mc_userId := "alice" |}]
     ∧ r.2 = [Emit (ToRoom "lobby") "new-message"
                (mem_record 0 {| mc_content := "hi"; mc_type := "text";
                                 mc_imageUrl := None; mc_roomId := "lobby";
                                 mc_userId := "alice" |})]
     ∧ receivers r.1 (ToRoom "lobby") = {["c1"; "c2"]})
  ∧ (step (set_db db_down anonymous) (Receive "c9" (SendMessage hello))).2
    = [Emit (ToSocket "c9") "error"
         (JObject [("message", JString "Failed to save message")])].
Proof. cbv zeta. split_and!; vm_compute; reflexivity. Qed.

(** C9 at the failing input.  [carol]'s component answered an offer of
    [bob], so it has a link for him; the call is closed and opened again,
    so the effect registers its handlers anew and they close over that
    [peers] object.  [bob] leaves the call: the link is closed and the
    component has no link for him any more.  A candidate of [bob] that
    arrives now is not dropped: the handler finds the closed connection in
    its own [peers] and adds the candidate to it, which the browser rejects
    with [InvalidStateError], and the handler throws; with a browser that
    lets it pass, the candidate is added to the closed connection. *)
Theorem late_candidate_reaches_closed_link :
  let view := VideoChat.view_of MoreExamples.answered_bob in
  let st := (VideoChat.on_event (browser := MoreExamples.standard_browser) carol view
               "user-left-video" MoreExamples.from_bob MoreExamples.answered_bob).1.1 in
  VideoChat.peers MoreExamples.answered_bob = {["bob" := 0]}
  ∧ VideoChat.peers st !! js_to_string (get_field "userId" candidate_from_bob) = None
  ∧ VideoChat.pc_closed <$> VideoChat.connections st = [true]
  ∧ VideoChat.on_event (browser := MoreExamples.standard_browser) carol view
      "ice-candidate" candidate_from_bob st
    = (st, [],
       VideoChat.Throw (VideoChat.ThrownError "InvalidStateError" "The connection is closed."))
  ∧ VideoChat.pc_candidates
      <$> VideoChat.connections
            (VideoChat.on_event (browser := microphone_only) carol view
               "ice-candidate" candidate_from_bob st).1.1
    = [[JString "candidate:1"]].
Proof. cbv zeta. split_and!; vm_compute; reflexivity. Qed.

(** * Further properties of the relay *)

Section RelayFacts.
Context {DB : Type} {storage : Storage DB}.
Implicit Types (s : State DB) (ou : gmap string (gset string)).

Lemma presence_join_raw roomId userId ou room :
  presence_join roomId userId ou !! room
  = if decide (roomId = room) then Some (default ∅ (ou !! roomId) ∪ {[userId]})
    else ou !! room.
Proof.
  unfold presence_join. case_decide as Hr.
  - subst room. destruct (ou !! roomId) as [users|] eqn:Hou.
    + by rewrite lookup_alter_eq, Hou.
    + by rewrite lookup_alter_eq, lookup_insert_eq.
  - rewrite lookup_alter_ne by done.
    destruct (ou !! roomId); [done|]. by rewrite lookup_insert_ne.
Qed.

Lemma presence_leave_raw roomId userId ou room :
  presence_leave roomId userId ou !! room
  = if decide (roomId = room)
    then ou !! roomId ≫= λ users,
           if decide (size (users ∖ {[userId]}) = 0) then None
           else Some (users ∖ {[userId]})
    else ou !! room.
Proof.
  unfold presence_leave. destruct (decide (roomId = room)) as [<-|Hne].
  - rewrite lookup_alter_eq. destruct (ou !! roomId) as [users|] eqn:Hou; simpl.
    + case_decide; [apply lookup_delete_eq|by rewrite lookup_alter_eq, Hou].
    + by rewrite lookup_alter_eq, Hou.
  - assert (alter (λ users, users ∖ {[userId]}) roomId ou !! room = ou !! room) as Hother
      by by rewrite lookup_alter_ne.
    destruct (alter _ roomId ou !! roomId); [|done].
    case_decide; [|done]. by rewrite lookup_delete_ne.
Qed.

Lemma bound_identity_nonempty s sid userId :
  bound_identity s sid = Some userId → userId ≠ "".
Proof.
  unfold bound_identity. destruct (userSockets s !! sid); [|done].
  case_decide; naive_solver.
Qed.

Lemma onlineUsers_handle s sid m :
  onlineUsers (handle sid m s).1
  = match m, bound_identity s sid with
    | JoinRoom roomId, Some userId => presence_join roomId userId (onlineUsers s)
    | LeaveRoom roomId, Some userId => presence_leave roomId userId (onlineUsers s)
    | _, _ => onlineUsers s
    end.
Proof.
  destruct m; simpl; try done.
  - apply on_join_room_onlineUsers.
  - unfold on_leave_room. by destruct (bound_identity s sid).
  - unfold on_send_message. by destruct (message_create _ _) as [[??]|].
Qed.

Lemma size_zero_empty (users : gset string) : size users = 0 ↔ users = ∅.
Proof.
  split; [|intros ->; apply size_empty].
  intros Hs. apply size_empty_inv in Hs. by apply leibniz_equiv in Hs.
Qed.

Lemma presence_wf_step s e :
  presence_wf (onlineUsers s) → presence_wf (onlineUsers (step s e).1).
Proof.
  intros Hwf. destruct e as [sid|sid m|sid|roomId];
    [simpl..|by rewrite roster_answer_state].
  - by destruct (sids s !! sid).
  - destruct (sids s !! sid); [|done]. rewrite onlineUsers_handle.
    destruct m; try done.
    + destruct (bound_identity s sid) as [u|] eqn:Hb; [|done].
      intros room users. rewrite presence_join_raw. case_decide.
      * intros [= <-]. apply bound_identity_nonempty in Hb. split; [set_solver|].
        destruct (onlineUsers s !! roomId) as [old|] eqn:Hold; simpl; [|set_solver].
        destruct (Hwf _ _ Hold). set_solver.
      * apply Hwf.
    + destruct (bound_identity s sid) as [u|] eqn:Hb; [|done].
      intros room users. rewrite presence_leave_raw. case_decide.
      * destruct (onlineUsers s !! roomId) as [old|] eqn:Hold; simpl; [|done].
        case_decide as Hsz; [done|]. intros [= <-].
        rewrite size_zero_empty in Hsz. destruct (Hwf _ _ Hold). set_solver.
      * apply Hwf.
  - destruct (sids s !! sid); [|done]. unfold on_disconnect.
    rewrite bound_identity_live. destruct (bound_identity s sid) as [u|]; [|done].
    simpl. intros room users. rewrite disconnect_rooms_lookup.
    destruct (onlineUsers s !! room) as [old|] eqn:Hold; simpl; [|done].
    unfold users_without. destruct (Hwf _ _ Hold).
    repeat case_decide; intros [= <-]; try done.
    match goal with Hsz : size _ ≠ 0 |- _ => rewrite size_zero_empty in Hsz end.
    set_solver.
Qed.

Lemma run_snoc s trace e : run s (trace ++ [e]) = (step (run s trace) e).1.
Proof. unfold run. by rewrite foldl_app. Qed.

(** X1. Whatever happens to the relay, the presence map never keeps an
    empty room and never holds the empty identity. *)
Theorem presence_map_well_formed (d : DB) trace :
  presence_wf (onlineUsers (run (init d) trace)).
Proof.
  induction trace as [|e trace IH] using rev_ind.
  - intros room users. simpl. by rewrite lookup_empty.
  - rewrite run_snoc. by apply presence_wf_step.
Qed.

Lemma bindings_live_step s e : bindings_live s → bindings_live (step s e).1.
Proof.
  unfold bindings_live, bound_identity. intros Hlive.
  destruct e as [sid|sid m|sid|roomId]; [simpl..|by rewrite roster_answer_state].
  - destruct (sids s !! sid) eqn:Hs; [done|]. simpl. intros c u Hc.
    destruct (decide (sid = c)) as [->|Hne]; [by rewrite lookup_insert_eq|].
    rewrite lookup_insert_ne by done. by apply (Hlive c u).
  - destruct (sids s !! sid) as [rs|] eqn:Hs; [|done].
    destruct m; simpl; try done.
    + intros c u. destruct (decide (sid = c)) as [->|Hne].
      * by rewrite Hs.
      * rewrite lookup_insert_ne by done. apply Hlive.
    + unfold on_join_room. fold (bound_identity s sid).
      destruct (bound_identity s sid); [|done].
      assert (∀ c u, match userSockets s !! c with
                     | Some userId => if decide (userId = "") then None else Some userId
                     | None => None
                     end = Some u →
                     is_Some (alter (λ rs, rs ∪ {[roomId]}) sid (sids s) !! c)) as Hgoal.
      { intros c u Hc. apply Hlive in Hc. destruct (decide (sid = c)) as [->|Hne].
        - by rewrite lookup_alter_eq, Hs.
        - by rewrite lookup_alter_ne. }
      done.
    + unfold on_leave_room. fold (bound_identity s sid).
      destruct (bound_identity s sid); [|done]. simpl.
      intros c u Hc. apply Hlive in Hc. destruct (decide (sid = c)) as [->|Hne].
      * by rewrite lookup_alter_eq, Hs.
      * by rewrite lookup_alter_ne.
    + unfold on_send_message. by destruct (message_create _ _) as [[??]|].
    + intros c u Hc. apply Hlive in Hc. destruct (decide (sid = c)) as [->|Hne].
      * by rewrite lookup_alter_eq, Hs.
      * by rewrite lookup_alter_ne.
    + intros c u Hc. apply Hlive in Hc. destruct (decide (sid = c)) as [->|Hne].
      * by rewrite lookup_alter_eq, Hs.
      * by rewrite lookup_alter_ne.
  - destruct (sids s !! sid) as [rs|] eqn:Hs; [|done].
    unfold on_disconnect. rewrite bound_identity_live.
    destruct (bound_identity s sid) as [u0|] eqn:Hb; simpl.
    + intros c u. destruct (decide (sid = c)) as [->|Hne].
      * by rewrite lookup_delete_eq.
      * rewrite !lookup_delete_ne by done. apply Hlive.
    + intros c u Hc. destruct (decide (sid = c)) as [->|Hne].
      * unfold bound_identity in Hb. congruence.
      * rewrite lookup_delete_ne by done. by apply (Hlive c u).
Qed.

(** X2. Whatever happens to the relay, a connection with a usable identity
    binding is a live connection: the binding of an identified connection is
    dropped when it disconnects. *)
Theorem bindings_belong_to_live_connections (d : DB) trace :
  bindings_live (run (init d) trace).
Proof.
  induction trace as [|e trace IH] using rev_ind.
  - intros sid u. unfold bound_identity. simpl. by rewrite lookup_empty.
  - rewrite run_snoc. by apply bindings_live_step.
Qed.

Lemma delivered_room_in s c room event payload :
  joined s c room →
  delivered s c [Emit (ToRoom room) event payload] = [Emit (ToRoom room) event payload].
Proof.
  intros Hin. rewrite delivered_singleton. rewrite decide_True; [done|].
  by apply elem_of_receivers_room.
Qed.

Lemma delivered_room_out s c room event payload :
  ¬ joined s c room → delivered s c [Emit (ToRoom room) event payload] = [].
Proof.
  intros Hout. rewrite delivered_singleton. rewrite decide_False; [done|].
  intros Hin. by apply Hout, elem_of_receivers_room.
Qed.

(** *** Join and leave *)

Lemma step_join_bound s sid rs room userId :
  sids s !! sid = Some rs →
  bound_identity s sid = Some userId →
  let s' := mkState (presence_join room userId (onlineUsers s)) (userSockets s)
              (alter (λ rs, rs ∪ {[room]}) sid (sids s)) (db s) in
  step s (Receive sid (JoinRoom room)) = (s', []).
Proof.
  intros Hlive Hbound. simpl. rewrite Hlive. unfold on_join_room. by rewrite Hbound.
Qed.

Lemma step_leave_bound s sid rs room userId :
  sids s !! sid = Some rs →
  bound_identity s sid = Some userId →
  step s (Receive sid (LeaveRoom room))
  = (mkState (presence_leave room userId (onlineUsers s)) (userSockets s)
       (alter (λ rs, rs ∖ {[room]}) sid (sids s)) (db s),
     [Emit (ToRoom room) "user_offline" (JString userId)]).
Proof.
  intros Hlive Hbound. simpl. rewrite Hlive. unfold on_leave_room. by rewrite Hbound.
Qed.

Lemma joined_alter (ou : gmap string (gset string)) us (sd : gmap string (gset string))
    (d : DB) f sid c room :
  joined (mkState ou us (alter f sid sd) d) c room
  ↔ ∃ rs, sd !! c = Some rs ∧ room ∈ (if decide (sid = c) then f rs else rs).
Proof.
  unfold joined. simpl. destruct (decide (sid = c)) as [->|Hne].
  - rewrite lookup_alter_eq. destruct (sd !! c) as [rs|]; simpl; naive_solver.
  - rewrite lookup_alter_ne by done. naive_solver.
Qed.

Lemma presence_leave_join roomId userId ou :
  userId ∉ default ∅ (ou !! roomId) →
  ou !! roomId ≠ Some ∅ →
  presence_leave roomId userId (presence_join roomId userId ou) = ou.
Proof.
  intros Habsent Hrecord. apply map_eq. intros room.
  rewrite presence_leave_raw. destruct (decide (roomId = room)) as [<-|Hne];
    [|rewrite presence_join_raw; by rewrite decide_False].
  rewrite presence_join_raw. rewrite (decide_True (P := roomId = roomId)) by done. simpl.
  assert ((default ∅ (ou !! roomId) ∪ {[userId]}) ∖ {[userId]} = default ∅ (ou !! roomId))
    as -> by set_solver.
  destruct (ou !! roomId) as [users|] eqn:Hou; simpl in *.
  - rewrite decide_False; [done|]. rewrite size_zero_empty. congruence.
  - case_decide as Hz; [done|]. destruct Hz. by apply size_zero_empty.
Qed.

(** X3. When an identified connection joins a room it was not in, under an
    identity that was not present there, and then leaves it, the relay is
    back in the state it was in before the join: presence map, bindings and
    adapter. *)
Theorem join_then_leave_restores s sid rs room userId :
  sids s !! sid = Some rs →
  room ∉ rs →
  bound_identity s sid = Some userId →
  userId ∉ presence s room →
  onlineUsers s !! room ≠ Some ∅ →
  (step (step s (Receive sid (JoinRoom room))).1 (Receive sid (LeaveRoom room))).1 = s.
Proof.
  intros Hlive Hout Hbound Habsent Hrecord.
  pose proof (step_join_bound s sid rs room userId Hlive Hbound) as Hjoin.
  cbv zeta in Hjoin. apply (f_equal fst) in Hjoin. cbn [fst] in Hjoin. rewrite Hjoin.
  erewrite step_leave_bound; [|simpl; by rewrite lookup_alter_eq, Hlive|done].
  simpl. destruct s as [ou us sd d]. simpl in *. f_equal.
  - by apply presence_leave_join.
  - apply map_eq. intros c. destruct (decide (sid = c)) as [<-|Hne].
    + rewrite !lookup_alter_eq, Hlive. simpl. f_equal. set_solver.
    + by rewrite !lookup_alter_ne.
Qed.

(** X6. [leave-room] on an identified connection takes the identity out of
    the room's presence set and the connection out of the adapter room, and
    sends one [user_offline] to the room whether or not the identity was
    present: the connections that remain in the room receive it, the one
    that leaves does not. *)
Theorem leave_room_notifies_the_others s sid rs room userId :
  sids s !! sid = Some rs →
  bound_identity s sid = Some userId →
  let r := step s (Receive sid (LeaveRoom room)) in
  r.2 = [Emit (ToRoom room) "user_offline" (JString userId)]
  ∧ presence r.1 room = presence s room ∖ {[userId]}
  ∧ ¬ joined r.1 sid room
  ∧ delivered r.1 sid r.2 = []
  ∧ (∀ c, c ≠ sid → joined s c room → delivered r.1 c r.2 = r.2).
Proof.
  intros Hlive Hbound r. unfold r.
  rewrite (step_leave_bound s sid rs room userId Hlive Hbound). simpl fst. simpl snd.
  assert (¬ joined (mkState (presence_leave room userId (onlineUsers s)) (userSockets s)
                      (alter (λ rs, rs ∖ {[room]}) sid (sids s)) (db s)) sid room) as Hgone.
  { rewrite joined_alter. intros (rs0 & _ & Hin).
    rewrite decide_True in Hin by done. set_solver. }
  split_and!.
  - done.
  - unfold presence. simpl. rewrite presence_leave_lookup. by rewrite decide_True.
  - done.
  - by apply delivered_room_out.
  - intros c Hne (rs' & Hc & Hin). apply delivered_room_in. rewrite joined_alter.
    exists rs'. by rewrite decide_False.
Qed.

Lemma step_roster_answer s room :
  step s (RosterAnswer room)
  = (s, match roomMember_findMany (db s) room with
        | Some roomMembers =>
            [Emit (ToRoom room) "room_members_update"
               (JArray (member_status (onlineUsers s) room <$> roomMembers))]
        | None => []
        end).
Proof. simpl. unfold on_join_room_answer. by destruct (roomMember_findMany _ _). Qed.

(** X7. [join-room] on an identified connection takes effect before the
    roster is read: at once the identity is in the room's presence set and
    the connection in the adapter room, whatever storage will answer, and
    nothing is sent.  The snapshot goes out when storage answers, after
    whatever events the relay handled in between: the relay state is not
    changed, nothing is sent when the query throws, otherwise one snapshot
    is sent to the room and reaches the connections that are in the room at
    that moment.  The joining connection receives it when the answer comes
    before any other event, and does not when it has left the room or
    disconnected in between. *)
Theorem join_room_takes_effect_before_snapshot s sid rs room userId :
  sids s !! sid = Some rs →
  bound_identity s sid = Some userId →
  let r := step s (Receive sid (JoinRoom room)) in
  presence r.1 room = presence s room ∪ {[userId]}
  ∧ joined r.1 sid room
  ∧ db r.1 = db s
  ∧ r.2 = []
  ∧ (∀ between,
       let s' := run r.1 between in
       let a := step s' (RosterAnswer room) in
       a.1 = s'
       ∧ match roomMember_findMany (db s') room with
         | None => a.2 = []
         | Some roomMembers =>
             a.2 = [Emit (ToRoom room) "room_members_update"
                      (JArray (member_status (onlineUsers s') room <$> roomMembers))]
         end
       ∧ (∀ c, joined s' c room → delivered s' c a.2 = a.2)
       ∧ (∀ c, ¬ joined s' c room → delivered s' c a.2 = []))
  ∧ delivered r.1 sid (step r.1 (RosterAnswer room)).2 = (step r.1 (RosterAnswer room)).2
  ∧ (∀ e, e = Receive sid (LeaveRoom room) ∨ e = Disconnect sid →
       let s' := (step r.1 e).1 in
       delivered s' sid (step s' (RosterAnswer room)).2 = []).
Proof.
  intros Hlive Hbound r. unfold r.
  rewrite (step_join_bound s sid rs room userId Hlive Hbound). cbv zeta.
  cbn [fst snd].
  set (s1 := mkState (presence_join room userId (onlineUsers s)) (userSockets s)
               (alter (λ rs, rs ∪ {[room]}) sid (sids s)) (db s)).
  assert (joined s1 sid room) as Hin.
  { unfold s1. rewrite joined_alter. exists rs. rewrite decide_True by done. set_solver. }
  assert (sids s1 !! sid = Some (rs ∪ {[room]})) as Hlive1.
  { unfold s1. simpl. by rewrite lookup_alter_eq, Hlive. }
  assert (bound_identity s1 sid = Some userId) as Hbound1 by done.
  split_and!.
  - unfold presence, s1. simpl. rewrite presence_join_lookup. by rewrite decide_True.
  - done.
  - done.
  - done.
  - intros between. rewrite step_roster_answer. cbn [fst snd]. split_and!.
    + done.
    + by destruct (roomMember_findMany _ _).
    + intros c Hc. destruct (roomMember_findMany _ _); [|done].
      by apply delivered_room_in.
    + intros c Hc. destruct (roomMember_findMany _ _); [|done].
      by apply delivered_room_out.
  - rewrite step_roster_answer. cbn [snd].
    destruct (roomMember_findMany _ _); [|done]. by apply delivered_room_in.
  - intros e He.
    assert (¬ joined (step s1 e).1 sid room) as Hgone.
    { destruct He as [-> | ->].
      - rewrite (step_leave_bound s1 sid _ room userId Hlive1 Hbound1). simpl fst.
        rewrite joined_alter. intros (rs0 & _ & Hroom).
        rewrite decide_True in Hroom by done. set_solver.
      - intros (rs0 & Hsid & _). revert Hsid. unfold step. rewrite Hlive1.
        unfold on_disconnect. destruct (bound_identity _ _); simpl;
          by rewrite lookup_delete_eq. }
    rewrite step_roster_answer. cbn [snd].
    destruct (roomMember_findMany _ _); [|done]. by apply delivered_room_out.
Qed.

Lemma member_status_fields ou room member :
  get_field "id" (member_status ou room member) = JString (user_id (rm_user member))
  ∧ get_field "online" (member_status ou room member)
    = JBool (bool_decide (user_id (rm_user member) ∈ default ∅ (ou !! room))).
Proof. done. Qed.

(** X8. The snapshot of a [join-room] lists the durable roster, member for
    member and in the order storage returned it, and flags a member online
    exactly when the member is in the room's presence set at the moment
    storage answers, after the events the relay handled since the
    [join-room]: somebody who joined in the meantime is flagged online and
    somebody who left is not.  An identity that is present without being on
    the roster is not listed. *)
Theorem snapshot_is_roster_flagged_by_presence s sid room between roomMembers :
  let s' := run (step s (Receive sid (JoinRoom room))).1 between in
  roomMember_findMany (db s') room = Some roomMembers →
  let a := step s' (RosterAnswer room) in
  ∃ payload,
    a.2 = [Emit (ToRoom room) "room_members_update" payload]
    ∧ length (snapshot_items payload) = length roomMembers
    ∧ (∀ i member, roomMembers !! i = Some member →
         ∃ entry, snapshot_items payload !! i = Some entry
                  ∧ get_field "id" entry = JString (user_id (rm_user member))
                  ∧ (get_field "online" entry = JBool true
                     ↔ user_id (rm_user member) ∈ presence s' room))
    ∧ (∀ entry, entry ∈ snapshot_items payload →
         ∃ member, member ∈ roomMembers
                   ∧ get_field "id" entry = JString (user_id (rm_user member))).
Proof.
  intros s' Hroster a. unfold a. rewrite step_roster_answer, Hroster. cbn [snd].
  eexists. split; [done|]. simpl snapshot_items. split_and!.
  - by rewrite length_fmap.
  - intros i member Hi. eexists. split; [by rewrite list_lookup_fmap, Hi|].
    destruct (member_status_fields (onlineUsers s') room member) as [Hid Honline].
    split; [exact Hid|]. rewrite Honline. unfold presence.
    split.
    + intros [= Hb]. by apply bool_decide_eq_true in Hb.
    + intros Hin. f_equal. by apply bool_decide_eq_true.
  - intros entry Hentry. apply list_elem_of_fmap in Hentry as (member & -> & Hmember).
    exists member. split; [done|]. apply member_status_fields.
Qed.

(** *** Identify and disconnect *)

Lemma step_identify s sid rs userId :
  sids s !! sid = Some rs →
  step s (Receive sid (Identify userId))
  = (mkState (onlineUsers s) (<[sid := userId]> (userSockets s)) (sids s) (db s),
     [Emit ToAll "user_online" (JString userId)]).
Proof. intros Hlive. simpl. by rewrite Hlive. Qed.

Lemma bound_identity_insert (ou : gmap string (gset string)) (us : gmap string string)
    (sd : gmap string (gset string)) (d : DB) sid userId :
  bound_identity (mkState ou (<[sid := userId]> us) sd d) sid
  = if decide (userId = "") then None else Some userId.
Proof. unfold bound_identity. simpl. by rewrite lookup_insert_eq. Qed.

Lemma step_disconnect_state s sid :
  is_Some (sids s !! sid) →
  sids (step s (Disconnect sid)).1 = delete sid (sids s)
  ∧ bound_identity (step s (Disconnect sid)).1 sid = None.
Proof.
  intros [rs Hlive]. simpl. rewrite Hlive. unfold on_disconnect.
  rewrite bound_identity_live. destruct (bound_identity s sid) as [u|] eqn:Hb; simpl.
  - split; [done|]. unfold bound_identity. simpl. by rewrite lookup_delete_eq.
  - done.
Qed.

(** X4. Identify is last-write-wins and the disconnect only clears the
    identity bound at that moment: when a connection joins a room under one
    identity, identifies again under another and disconnects, the first
    identity stays in the room's presence set although the connection is
    gone. *)
Theorem rebound_identity_stays_present s sid first second room :
  is_Some (sids s !! sid) →
  first ≠ "" →
  second ≠ first →
  let s' := run s (rebind_then_disconnect sid first room second) in
  first ∈ presence s' room ∧ sids s' !! sid = None ∧ bound_identity s' sid = None.
Proof.
  intros [rs Hlive] Hfirst Hsecond s'. unfold s', rebind_then_disconnect.
  rewrite !run_cons. change (run ?x []) with x.
  rewrite (step_identify s sid rs first Hlive). cbn [fst].
  set (s1 := mkState (onlineUsers s) (<[sid := first]> (userSockets s)) (sids s) (db s)).
  assert (bound_identity s1 sid = Some first) as Hb1.
  { unfold s1. rewrite bound_identity_insert. by rewrite decide_False. }
  pose proof (step_join_bound s1 sid rs room first Hlive Hb1) as Hjoin.
  cbv zeta in Hjoin. apply (f_equal fst) in Hjoin. cbn [fst] in Hjoin. rewrite Hjoin.
  set (s2 := mkState _ _ _ _).
  assert (sids s2 !! sid = Some (rs ∪ {[room]})) as Hlive2.
  { unfold s2, s1. simpl. by rewrite lookup_alter_eq, Hlive. }
  rewrite (step_identify s2 sid _ second Hlive2). cbn [fst].
  set (s3 := mkState _ _ _ _).
  assert (first ∈ presence s3 room) as Hin3.
  { unfold presence, s3, s2, s1. simpl. rewrite presence_join_lookup.
    rewrite decide_True by done. set_solver. }
  assert (bound_identity s3 sid ≠ Some first) as Hb3.
  { unfold s3. rewrite bound_identity_insert. case_decide; congruence. }
  assert (is_Some (sids s3 !! sid)) as Hlive3 by (unfold s3; simpl; eauto).
  destruct (step_disconnect_state s3 sid Hlive3) as [Hsids Hb4].
  split_and!.
  - apply presence_step_iff. right. split; [done|].
    intros (c & [Hc|Hc] & _ & Hbc); simplify_eq.
  - rewrite Hsids. apply lookup_delete_eq.
  - done.
Qed.

(** X5. A disconnect announces nothing but [user_offline]: the connection
    is out of every adapter room, the call channels included, and no
    [user-left-video] is sent for it; for a connection without a usable
    identity nothing is sent at all and the presence map is unchanged. *)
Theorem disconnect_only_announces_offline s sid :
  let r := step s (Disconnect sid) in
  Forall (λ em, em_event em = "user_offline") r.2
  ∧ (is_Some (sids s !! sid) → ∀ room, ¬ joined r.1 sid room)
  ∧ (bound_identity s sid = None → r.2 = [] ∧ onlineUsers r.1 = onlineUsers s).
Proof.
  cbv zeta. split_and!.
  - simpl. destruct (sids s !! sid); [|done]. unfold on_disconnect.
    rewrite bound_identity_live. destruct (bound_identity s sid) as [u|]; [|done].
    simpl. apply Forall_app. split.
    + eapply Forall_impl; [apply disconnect_rooms_events|]. by intros em (? & _).
    + by apply Forall_singleton.
  - intros Hlive room (rs & Hrs & _).
    destruct (step_disconnect_state s sid Hlive) as [Hsids _].
    rewrite Hsids, lookup_delete_eq in Hrs. done.
  - intros Hb. simpl. destruct (sids s !! sid); [|done]. unfold on_disconnect.
    by rewrite bound_identity_live, Hb.
Qed.

(** *** The call channel *)






End RelayFacts.

(** * Properties of the chat page *)

Section PageFacts.
Implicit Types (o : list (string * JsValue)) (st : Page.State).

Lemma lookup_set_field_eq k v o : lookup_field k (set_field k v o) = v.
Proof.
  induction o as [|[k' v'] o IH]; simpl.
  - by rewrite decide_True.
  - destruct (decide (k' = k)) as [->|Hne]; simpl.
    + by rewrite decide_True.
    + by rewrite decide_False.
Qed.

Lemma lookup_set_field_ne k k' v o :
  k ≠ k' → lookup_field k' (set_field k v o) = lookup_field k' o.
Proof.
  intros Hne. induction o as [|[k0 v0] o IH]; simpl.
  - by rewrite decide_False.
  - destruct (decide (k0 = k)) as [->|Hk]; simpl.
    + by rewrite !decide_False.
    + by rewrite IH.
Qed.

Lemma set_field_keys k v o : (set_field k v o).*1 = if decide (k ∈ o.*1) then o.*1 else o.*1 ++ [k].
Proof.
  induction o as [|[k' v'] o IH]; [done|].
  cbn [set_field]. destruct (decide (k' = k)) as [->|Hne].
  - rewrite fmap_cons. cbn [fst]. rewrite fmap_cons. cbn [fst].
    rewrite decide_True; [done|]. apply list_elem_of_here.
  - rewrite !fmap_cons. cbn [fst]. rewrite IH.
    destruct (decide (k ∈ o.*1)) as [Hin|Hout].
    + rewrite decide_True; [done|]. by apply list_elem_of_further.
    + rewrite decide_False; [done|]. rewrite elem_of_cons. naive_solver.
Qed.

Lemma set_field_present k v o :
  k ∈ o.*1 → lookup_field k o = v → set_field k v o = o.
Proof.
  induction o as [|[k' v'] o IH]; simpl.
  - intros Hin. by apply not_elem_of_nil in Hin.
  - intros Hin Hv. destruct (decide (k' = k)) as [->|Hne]; [by subst|].
    f_equal. apply IH; [|done]. apply elem_of_cons in Hin. naive_solver.
Qed.

Lemma set_field_has k v o : k ∈ (set_field k v o).*1.
Proof.
  rewrite set_field_keys. case_decide; [done|]. apply elem_of_app. right.
  apply list_elem_of_here.
Qed.

Lemma set_field_keeps k k' v o : k' ∈ o.*1 → k' ∈ (set_field k v o).*1.
Proof.
  intros Hin. rewrite set_field_keys. case_decide; [done|].
  apply elem_of_app. by left.
Qed.

Lemma set_field_idemp k v o : set_field k v (set_field k v o) = set_field k v o.
Proof. apply set_field_present; [apply set_field_has|apply lookup_set_field_eq]. Qed.

(** One update and two updates of an object, as [update_by_id] applies
    them. *)
Lemma update_by_id_one id k v o :
  Page.update_by_id id [(k, v)] o
  = if strict_eq (lookup_field "id" o) id then set_field k v o else o.
Proof. done. Qed.

Lemma update_by_id_two id k1 v1 k2 v2 o :
  Page.update_by_id id [(k1, v1); (k2, v2)] o
  = if strict_eq (lookup_field "id" o) id then set_field k2 v2 (set_field k1 v1 o) else o.
Proof. done. Qed.

Lemma update_one_idemp id k v o :
  k ≠ "id" →
  Page.update_by_id id [(k, v)] (Page.update_by_id id [(k, v)] o)
  = Page.update_by_id id [(k, v)] o.
Proof.
  intros Hk. rewrite !update_by_id_one.
  destruct (strict_eq (lookup_field "id" o) id) eqn:Hid.
  - rewrite lookup_set_field_ne by done. rewrite Hid. apply set_field_idemp.
  - by rewrite Hid.
Qed.

Lemma update_two_idemp id k1 v1 k2 v2 o :
  k1 ≠ "id" → k2 ≠ "id" → k1 ≠ k2 →
  Page.update_by_id id [(k1, v1); (k2, v2)] (Page.update_by_id id [(k1, v1); (k2, v2)] o)
  = Page.update_by_id id [(k1, v1); (k2, v2)] o.
Proof.
  intros Hk1 Hk2 Hne. rewrite !update_by_id_two.
  destruct (strict_eq (lookup_field "id" o) id) eqn:Hid; [|by rewrite Hid].
  rewrite !lookup_set_field_ne by done. rewrite Hid.
  rewrite (set_field_present k1 v1 (set_field k2 v2 (set_field k1 v1 o))).
  - apply set_field_idemp.
  - apply set_field_keeps, set_field_has.
  - rewrite lookup_set_field_ne by done. apply lookup_set_field_eq.
Qed.

(** X10. An edit notification changes the messages with the notified id and
    no other: the list keeps its length, a message with that id gets the new
    content and the edited mark and keeps its other fields, every other
    message is untouched, and a second arrival of the same notification
    changes nothing. *)
Theorem message_updated_marks_matching_messages payload st :
  let st' := Page.on_message_updated payload st in
  length (Page.messages st') = length (Page.messages st)
  ∧ (∀ i msg, Page.messages st !! i = Some msg →
       ∃ msg', Page.messages st' !! i = Some msg'
         ∧ if strict_eq (lookup_field "id" msg) (get_field "messageId" payload)
           then lookup_field "content" msg' = get_field "content" payload
                ∧ lookup_field "isEdited" msg' = JBool true
                ∧ ∀ k, k ≠ "content" → k ≠ "isEdited" →
                       lookup_field k msg' = lookup_field k msg
           else msg' = msg)
  ∧ Page.roomMembers st' = Page.roomMembers st
  ∧ Page.on_message_updated payload st' = st'.
Proof.
  cbv zeta. unfold Page.on_message_updated, Page.setMessages. simpl. split_and!.
  - apply length_fmap.
  - intros i msg Hi. eexists. split; [by rewrite list_lookup_fmap, Hi|].
    rewrite update_by_id_two.
    destruct (strict_eq (lookup_field "id" msg) (get_field "messageId" payload)); [|done].
    split_and!.
    + rewrite lookup_set_field_ne by done. apply lookup_set_field_eq.
    + apply lookup_set_field_eq.
    + intros k Hc He. by rewrite !lookup_set_field_ne.
  - done.
  - f_equal. rewrite <- list_fmap_compose. apply list_fmap_ext.
    intros i msg _. simpl. by apply update_two_idemp.
Qed.

(** Two objects with the same value for every property. *)
Lemma lookup_set_field k k' v o :
  lookup_field k' (set_field k v o) = if decide (k = k') then v else lookup_field k' o.
Proof.
  case_decide as Hk; [subst; apply lookup_set_field_eq|by apply lookup_set_field_ne].
Qed.

(** X11. An edit notification and a delete notification, for the same
    message or for two, may reach the page in either order: message for
    message, every field has the same value afterwards. *)
Theorem edit_and_delete_notifications_commute edited deleted st :
  let a := Page.on_message_deleted deleted (Page.on_message_updated edited st) in
  let b := Page.on_message_updated edited (Page.on_message_deleted deleted st) in
  length (Page.messages a) = length (Page.messages b)
  ∧ ∀ i x y, Page.messages a !! i = Some x → Page.messages b !! i = Some y →
             ∀ k, lookup_field k x = lookup_field k y.
Proof.
  cbv zeta. unfold Page.on_message_deleted, Page.on_message_updated, Page.setMessages.
  simpl. split; [by rewrite !length_fmap|].
  intros i x y. rewrite !list_lookup_fmap.
  destruct (Page.messages st !! i) as [msg|]; [|done]. simpl.
  intros [= <-] [= <-] k.
  rewrite !update_by_id_one, !update_by_id_two.
  destruct (strict_eq (lookup_field "id" msg) (get_field "messageId" edited)) eqn:He;
    destruct (strict_eq (lookup_field "id" msg) (get_field "messageId" deleted)) eqn:Hd;
    rewrite ?(lookup_set_field_ne _ "id") by done; rewrite ?He, ?Hd; try done.
  rewrite !lookup_set_field. repeat case_decide; subst; done.
Qed.

End PageFacts.

(** * The relay and the pages together *)

Section EndToEnd.
Context {DB : Type} {storage : Storage DB}.
Implicit Types (s : State DB) (page : Page.State).

Lemma on_user_offline_idemp userId page :
  Page.on_user_offline userId (Page.on_user_offline userId page)
  = Page.on_user_offline userId page.
Proof.
  unfold Page.on_user_offline, Page.setRoomMembers. simpl. f_equal.
  rewrite <- list_fmap_compose. apply list_fmap_ext. intros i o _. simpl.
  by apply update_one_idemp.
Qed.

Lemma receive_all_offline userId out page :
  Forall (is_offline userId) out →
  Page.receive_all out page
  = Some (match out with
          | [] => page
          | _ => Page.on_user_offline (JString userId) page
          end).
Proof.
  intros Hall. revert page. induction Hall as [|em out [Hev Hpay] Hall IH]; intros page.
  - done.
  - cbn [Page.receive_all]. rewrite Hev, Hpay.
    change (Page.receive "user_offline" (JString userId) page)
      with (Some (Page.on_user_offline (JString userId) page)).
    cbv beta iota. rewrite IH. destruct out; [done|]. by rewrite on_user_offline_idemp.
Qed.

Lemma delivered_Forall (P : Emission → Prop) s c out :
  Forall P out → Forall P (delivered s c out).
Proof.
  rewrite !Forall_forall. intros Hall em Hem.
  apply list_elem_of_filter in Hem as [_ Hem]. by apply Hall.
Qed.

(** X12. When an identified connection disconnects, the page behind every
    other live connection, in whatever room, marks the identity offline in
    its member list: every listed member with that id has [online] false
    afterwards and no other member changes. *)
Theorem disconnect_marks_offline_on_every_page s sid userId c page :
  is_Some (sids s !! sid) →
  bound_identity s sid = Some userId →
  c ≠ sid →
  is_Some (sids s !! c) →
  let r := step s (Disconnect sid) in
  ∃ page',
    Page.receive_all (delivered r.1 c r.2) page = Some page'
    ∧ page' = Page.on_user_offline (JString userId) page
    ∧ Page.messages page' = Page.messages page
    ∧ ∀ i member, Page.roomMembers page !! i = Some member →
        ∃ member', Page.roomMembers page' !! i = Some member'
          ∧ if strict_eq (lookup_field "id" member) (JString userId)
            then lookup_field "online" member' = JBool false
            else member' = member.
Proof.
  intros Hlive Hbound Hne [rs Hc] r. unfold r.
  rewrite (step_disconnect_bound s sid userId Hlive Hbound). cbn [fst snd].
  set (s' := mkState _ _ _ _).
  eexists. split; [|split; [reflexivity|split; [done|]]].
  - erewrite receive_all_offline.
    + rewrite delivered_app, delivered_singleton. cbn [em_target receivers].
      rewrite decide_True.
      * by destruct (delivered s' c _).
      * unfold s'. simpl. apply elem_of_dom. rewrite lookup_delete_ne by done. eauto.
    + apply delivered_Forall, Forall_app. split.
      * eapply Forall_impl; [apply disconnect_rooms_events|].
        intros em (Hev & Hpay & _). by split.
      * by apply Forall_singleton.
  - intros i member Hi. unfold Page.on_user_offline, Page.setRoomMembers. simpl.
    eexists. split; [by rewrite list_lookup_fmap, Hi|].
    rewrite update_by_id_one.
    destruct (strict_eq (lookup_field "id" member) (JString userId)); [|done].
    apply lookup_set_field_eq.
Qed.

Lemma receive_all_one event payload target page :
  Page.receive_all [Emit target event payload] page = Page.receive event payload page.
Proof. cbn [Page.receive_all em_event em_payload]. by destruct (Page.receive _ _ _). Qed.

(** X13. A stored message is appended, as storage returned it, to the
    message list of the page behind every connection joined to the room and
    to no other page; when storing fails no page gets a message and the
    sender's page shows the failure. *)
Theorem stored_message_reaches_the_pages_of_the_room s sid data page :
  is_Some (sids s !! sid) →
  let room := smd_roomId data in
  let input := {| mc_content := smd_message data;
                  mc_type := default "text" (smd_type data);
                  mc_imageUrl := smd_imageUrl data;
                  mc_roomId := room;
                  mc_userId := smd_userId data |} in
  let r := step s (Receive sid (SendMessage data)) in
  match message_create (db s) input with
  | Some (record, db') =>
      ∀ fields, record = JObject fields →
        (∀ c, joined s c room →
              Page.receive_all (delivered r.1 c r.2) page
              = Some (Page.setMessages (λ prev, prev ++ [fields]) page))
        ∧ (∀ c, ¬ joined s c room → Page.receive_all (delivered r.1 c r.2) page = Some page)
  | None =>
      Page.receive_all (delivered r.1 sid r.2) page
      = Some (Page.setError (Some (JString "Failed to save message")) page)
      ∧ (∀ c, c ≠ sid → Page.receive_all (delivered r.1 c r.2) page = Some page)
  end.
Proof.
  intros [rs Hlive] room input r. unfold r. simpl. rewrite Hlive.
  unfold on_send_message. fold room. fold input.
  destruct (message_create (db s) input) as [[record db']|]; cbn [fst snd].
  - intros fields ->. split; intros c Hc.
    + rewrite delivered_room_in by done. by rewrite receive_all_one.
    + by rewrite delivered_room_out.
  - split.
    + rewrite delivered_singleton. cbn [em_target receivers]. rewrite decide_True.
      * by rewrite receive_all_one.
      * apply elem_of_intersection. split; [set_solver|]. apply elem_of_dom. eauto.
    + intros c Hne. rewrite delivered_singleton. cbn [em_target receivers].
      rewrite decide_False; [done|]. set_solver.
Qed.

(** X14. The relay forwards an edit or a delete notification from any live
    connection, identified or not, in the room or not, without touching its
    state or storage; the page behind every connection joined to the room
    applies it to the messages with that id, and no other page changes. *)
Theorem notifications_relayed_unchecked s sid roomId messageId content page :
  is_Some (sids s !! sid) →
  let u := step s (Receive sid (MessageUpdated roomId messageId content)) in
  let d := step s (Receive sid (MessageDeleted roomId messageId)) in
  u.1 = s ∧ d.1 = s
  ∧ (∀ c, joined s c roomId →
       Page.receive_all (delivered u.1 c u.2) page
       = Some (Page.setMessages
                 (fmap (Page.update_by_id (JString messageId)
                          [("content", JString content); ("isEdited", JBool true)])) page)
       ∧ Page.receive_all (delivered d.1 c d.2) page
         = Some (Page.setMessages
                   (fmap (Page.update_by_id (JString messageId)
                            [("isDeleted", JBool true)])) page))
  ∧ (∀ c, ¬ joined s c roomId →
       Page.receive_all (delivered u.1 c u.2) page = Some page
       ∧ Page.receive_all (delivered d.1 c d.2) page = Some page).
Proof.
  intros [rs Hlive] u d. unfold u, d. simpl. rewrite Hlive.
  unfold on_message_updated, on_message_deleted. cbn [fst snd].
  split_and!; try done.
  - intros c Hc. rewrite !delivered_room_in by done. by rewrite !receive_all_one.
  - intros c Hc. by rewrite !delivered_room_out.
Qed.


(** X16. Switching rooms on the page of an identified, connected user sends
    [leave-room] for the current room and [join-room] for the new one; once
    the relay has handled both, the identity is present in the new room and
    the connection joined to it, and, when the rooms differ, neither holds
    for the old room.  On a socket that is not connected the page takes the
    new room as current although nothing is sent. *)
Theorem switching_rooms_moves_presence s sid rs userId current next page :
  sids s !! sid = Some rs →
  bound_identity s sid = Some userId →
  Page.currentRoom page = Some current →
  current ≠ "" →
  let h := Page.handleJoinRoom true next page in
  let s' := run s (Receive sid <$> h.2) in
  h.2 = [LeaveRoom current; JoinRoom next]
  ∧ Page.currentRoom h.1 = Some next
  ∧ userId ∈ presence s' next
  ∧ joined s' sid next
  ∧ (current ≠ next → (userId ∉ presence s' current) ∧ ¬ joined s' sid current)
  ∧ Page.handleJoinRoom false next page
    = (Page.setError None (Page.setCurrentRoom (Some next) page), []).
Proof.
  intros Hlive Hbound Hcurrent Hne h s'.
  assert (h.2 = [LeaveRoom current; JoinRoom next]) as Hout.
  { unfold h, Page.handleJoinRoom. rewrite Hcurrent. simpl. by rewrite decide_False. }
  assert (Page.handleJoinRoom false next page
          = (Page.setError None (Page.setCurrentRoom (Some next) page), [])) as Hoff.
  { unfold Page.handleJoinRoom. rewrite Hcurrent. by rewrite decide_False. }
  unfold s'. rewrite Hout. rewrite !fmap_cons, fmap_nil, !run_cons.
  change (run ?x []) with x.
  rewrite (step_leave_bound s sid rs current userId Hlive Hbound). cbn [fst].
  set (s1 := mkState _ _ _ _).
  assert (sids s1 !! sid = Some (rs ∖ {[current]})) as Hlive1.
  { unfold s1. simpl. by rewrite lookup_alter_eq, Hlive. }
  assert (bound_identity s1 sid = Some userId) as Hbound1 by done.
  pose proof (step_join_bound s1 sid _ next userId Hlive1 Hbound1) as Hjoin.
  cbv zeta in Hjoin. apply (f_equal fst) in Hjoin. cbn [fst] in Hjoin. rewrite Hjoin.
  split_and!; try done.
  - unfold presence. simpl. rewrite presence_join_lookup.
    rewrite decide_True by done. set_solver.
  - rewrite joined_alter. eexists. split; [exact Hlive1|].
    rewrite decide_True by done. set_solver.
  - intros Hdiff. split.
    + unfold presence. simpl. rewrite presence_join_lookup.
      rewrite decide_False by done. rewrite presence_leave_lookup.
      rewrite decide_True by done. set_solver.
    + rewrite joined_alter. intros (rs0 & Hrs0 & Hin).
      rewrite decide_True in Hin by done. rewrite Hlive1 in Hrs0. set_solver.
Qed.

End EndToEnd.

(** * Properties of the members route *)

Section RouteFacts.
Context {DB : Type} {roster : MembersRoute.RosterStorage DB}.

(** X17. [POST] answers 401 exactly when nobody is signed in, and 201
    exactly when the user is signed in, is not yet a member and the row is
    created; with any other answer, among them 400 for a user who is
    already a member, the database is left as it was. *)
Theorem post_membership_outcomes session roomId (d : DB) :
  let r := MembersRoute.POST session roomId d in
  (MembersRoute.status r.1 = 401 ↔ session = Some None)
  ∧ (MembersRoute.status r.1 = 201
     ↔ ∃ userId room,
         session = Some (Some userId)
         ∧ MembersRoute.roomMember_findUnique d userId roomId = Some None
         ∧ MembersRoute.roomMember_create d userId roomId = Some (room, r.2)
         ∧ MembersRoute.body r.1 = room)
  ∧ (MembersRoute.status r.1 ≠ 201 → r.2 = d)
  ∧ (∀ userId member,
       session = Some (Some userId) →
       MembersRoute.roomMember_findUnique d userId roomId = Some (Some member) →
       r = (MembersRoute.error_response "Already a member of this room" 400, d)).
Proof.
  cbv zeta. unfold MembersRoute.POST.
  destruct session as [[userId|]|]; simpl.
  2,3: split_and!; try done; try naive_solver.
  destruct (MembersRoute.roomMember_findUnique d userId roomId) as [[member|]|] eqn:Hfind;
    simpl.
  1,3: split_and!; try done; naive_solver.
  destruct (MembersRoute.roomMember_create d userId roomId) as [[room d']|] eqn:Hcreate;
    simpl.
  - split_and!; try done.
    + split; [|done]. intros _. by exists userId, room.
    + intros u member [= <-] Hmember. congruence.
  - split_and!; try done.
    + split; [done|]. intros (u & room & [= <-] & _ & Hc & _). congruence.
    + intros u member [= <-] Hmember. congruence.
Qed.

(** X18. With a unique key on membership, a second [POST] by the same user
    for the same room, right after one that answered 201, answers 400 and
    leaves the database as the first one made it. *)
Theorem post_twice_is_rejected session roomId (d : DB) :
  MembersRoute.unique_membership →
  MembersRoute.status (MembersRoute.POST session roomId d).1 = 201 →
  MembersRoute.POST session roomId (MembersRoute.POST session roomId d).2
  = (MembersRoute.error_response "Already a member of this room" 400,
     (MembersRoute.POST session roomId d).2).
Proof.
  intros Hunique. unfold MembersRoute.POST at 1 3 4.
  destruct session as [[userId|]|]; simpl; try done.
  destruct (MembersRoute.roomMember_findUnique d userId roomId) as [[member|]|];
    simpl; try done.
  destruct (MembersRoute.roomMember_create d userId roomId) as [[room d']|] eqn:Hcreate;
    simpl; try done.
  intros _. destruct (Hunique _ _ _ _ _ Hcreate) as [member Hfound].
  unfold MembersRoute.POST. by rewrite Hfound.
Qed.

(** X19. [DELETE] never removes the owner of a room: whenever storage
    reports the signed-in user as the owner the answer is 400, member or
    not; the database changes only with the answer 200, which is given
    exactly when the user is signed in, is not the owner and the row is
    deleted. *)
Theorem delete_membership_outcomes session roomId (d : DB) :
  let r := MembersRoute.DELETE session roomId d in
  (∀ userId room,
     session = Some (Some userId) →
     MembersRoute.room_findUnique d roomId = Some (Some room) →
     MembersRoute.room_ownerId room = userId →
     r = (MembersRoute.error_response "Room owner cannot leave the room" 400, d))
  ∧ (MembersRoute.status r.1 = 401 ↔ session = Some None)
  ∧ (MembersRoute.status r.1 = 200
     ↔ ∃ userId room,
         session = Some (Some userId)
         ∧ MembersRoute.room_findUnique d roomId = Some room
         ∧ MembersRoute.room_ownerId <$> room ≠ Some userId
         ∧ MembersRoute.roomMember_delete d userId roomId = Some r.2)
  ∧ (MembersRoute.status r.1 ≠ 200 → r.2 = d).
Proof.
  cbv zeta. unfold MembersRoute.DELETE.
  destruct session as [[userId|]|]; simpl.
  2,3: split_and!; try done; try naive_solver.
  destruct (MembersRoute.room_findUnique d roomId) as [room|] eqn:Hroom; simpl.
  2: split_and!; try done; naive_solver.
  case_bool_decide as Howner; simpl.
  - split_and!; try done. split; [done|]. intros (u & room' & [= <-] & [= <-] & Hno & _).
    done.
  - destruct (MembersRoute.roomMember_delete d userId roomId) as [d'|] eqn:Hdelete; simpl.
    + split_and!; try done.
      * intros u room' [= <-] [= ->] Hid. destruct Howner. simpl. by rewrite Hid.
      * split; [|done]. intros _. by exists userId, room.
    + split_and!; try done.
      * intros u room' [= <-] [= ->] Hid. destruct Howner. simpl. by rewrite Hid.
      * split; [done|]. intros (u & room' & [= <-] & _ & _ & Hd). congruence.
Qed.

End RouteFacts.

(** * Further properties of the call component *)

Section CallFacts.
Context {browser : VideoChat.Browser} (props : VideoChat.Props).


Lemma insert_last {A} (l : list A) (x y : A) : <[length l := y]> (l ++ [x]) = l ++ [y].
Proof.
  rewrite insert_app_r_alt by done. by rewrite Nat.sub_diag.
Qed.

Lemma lookup_last {A} (l : list A) (x : A) : (l ++ [x]) !! length l = Some x.
Proof. rewrite lookup_app_r by done. by rewrite Nat.sub_diag. Qed.

(** X21. A handler registered while the component had no local stream and
    no peer, as it is when the call is first opened, never sends an offer:
    for a peer that joins it creates a connection without tracks and sends
    nothing; and it ignores every answer and every candidate, whatever
    links the component has by then. *)
Theorem no_offer_before_local_stream view payload st :
  VideoChat.v_localStream view = None →
  VideoChat.v_peers view = ∅ →
  let peerId := get_field "userId" payload in
  let r := VideoChat.on_event props view "user-joined-video" payload st in
  r.2 = VideoChat.Normal ()
  ∧ r.1.2 = []
  ∧ VideoChat.peers r.1.1
    = <[js_to_string peerId := length (VideoChat.connections st)]> (VideoChat.peers st)
  ∧ VideoChat.connections r.1.1
    = VideoChat.connections st
      ++ [{| VideoChat.pc_peer := peerId; VideoChat.pc_tracks := None;
             VideoChat.pc_local := None; VideoChat.pc_remote := None;
             VideoChat.pc_candidates := []; VideoChat.pc_closed := false |}]
  ∧ VideoChat.on_event props view "video-answer" payload st
    = (st, [], VideoChat.Normal ())
  ∧ VideoChat.on_event props view "ice-candidate" payload st
    = (st, [], VideoChat.Normal ()).
Proof.
  intros Hstream Hpeers peerId r. unfold r.
  change (VideoChat.on_event props view "user-joined-video" payload)
    with (VideoChat.on_user_joined_video props view payload).
  change (VideoChat.on_event props view "video-answer" payload)
    with (VideoChat.on_video_answer view payload).
  change (VideoChat.on_event props view "ice-candidate" payload)
    with (VideoChat.on_ice_candidate view payload).
  unfold VideoChat.on_user_joined_video, VideoChat.on_video_answer,
    VideoChat.on_ice_candidate, VideoChat.createPeerConnection.
  fold peerId. rewrite Hstream, Hpeers, lookup_empty.
  by split_and!.
Qed.

(** X22. An offer always makes a new connection, whether or not the
    component already has one for that peer: the connections it had are
    kept as they are, none is closed, and the peer's entry now refers to the
    new one.  An answer is sent exactly when the handler completes, and it
    is addressed to the sender of the offer. *)
Theorem offer_appends_a_connection view payload st :
  let peerId := get_field "userId" payload in
  let r := VideoChat.on_event props view "video-offer" payload st in
  ∃ pc,
    VideoChat.connections r.1.1 = VideoChat.connections st ++ [pc]
    ∧ VideoChat.pc_peer pc = peerId
    ∧ VideoChat.pc_tracks pc = VideoChat.v_localStream view
    ∧ VideoChat.pc_closed pc = false
    ∧ VideoChat.peers r.1.1
      = <[js_to_string peerId := length (VideoChat.connections st)]> (VideoChat.peers st)
    ∧ VideoChat.streams r.1.1 = VideoChat.streams st
    ∧ match r.2 with
      | VideoChat.Normal _ =>
          VideoChat.pc_remote pc = Some (get_field "offer" payload)
          ∧ ∃ answer, VideoChat.pc_local pc = Some answer
                      ∧ r.1.2 = [VideoChat.signal props Answer peerId answer]
      | VideoChat.Throw _ => r.1.2 = []
      end.
Proof.
  intros peerId r. unfold r. rewrite on_event_video_offer.
  unfold VideoChat.on_video_offer. fold peerId.
  unfold VideoChat.createPeerConnection, VideoChat.with_connection.
  unfold mbind, VideoChat.M_bind, VideoChat.bind, VideoChat.read, VideoChat.setConnections,
    VideoChat.setPeers, VideoChat.update, VideoChat.ret, VideoChat.await, VideoChat.emit.
  simpl. rewrite lookup_last. simpl.
  destruct (VideoChat.setDescription _ _) as [[]|e1]; simpl;
    [|eexists; by split_and!].
  rewrite insert_last, lookup_last. simpl.
  destruct (VideoChat.createAnswer _) as [answer|e2]; simpl;
    [|eexists; by split_and!].
  rewrite insert_last, lookup_last. simpl.
  destruct (VideoChat.setDescription _ _) as [[]|e3]; simpl.
  - rewrite insert_last. eexists. split_and!; try done. by exists answer.
  - eexists. by split_and!.
Qed.

(** X23. When a linked peer leaves, its connection is closed and the peers
    and the streams become those the handler had when it was registered,
    without the peer's entries: links and streams added since then are
    dropped from the component too.  Once the handlers are registered anew,
    a repeated signal for the same peer changes nothing. *)
Theorem user_left_video_tears_down view payload st ref pc :
  let key := js_to_string (get_field "userId" payload) in
  VideoChat.v_peers view !! key = Some ref →
  VideoChat.connections st !! ref = Some pc →
  let r := VideoChat.on_event props view "user-left-video" payload st in
  r.2 = VideoChat.Normal ()
  ∧ r.1.2 = []
  ∧ VideoChat.connections r.1.1 = <[ref := VideoChat.close pc]> (VideoChat.connections st)
  ∧ VideoChat.peers r.1.1 = delete key (VideoChat.v_peers view)
  ∧ VideoChat.streams r.1.1 = delete key (VideoChat.v_streams view)
  ∧ VideoChat.on_event props (VideoChat.view_of r.1.1) "user-left-video" payload r.1.1
    = (r.1.1, [], VideoChat.Normal ()).
Proof.
  intros key Hpeer Hconn r.
  assert (r = (VideoChat.mkState (delete key (VideoChat.v_peers view))
                 (delete key (VideoChat.v_streams view)) (VideoChat.localStream st)
                 (VideoChat.error st) (VideoChat.isAudioOnly st)
                 (<[ref := VideoChat.close pc]> (VideoChat.connections st)),
               [], VideoChat.Normal ())) as ->.
  { unfold r.
    change (VideoChat.on_event props view "user-left-video" payload)
      with (VideoChat.on_user_left_video view payload).
    unfold VideoChat.on_user_left_video. fold key. rewrite Hpeer.
    unfold mbind, VideoChat.M_bind, VideoChat.bind, VideoChat.setConnections,
      VideoChat.setPeers, VideoChat.setStreams, VideoChat.update.
    simpl. by rewrite Hconn. }
  cbn [fst snd VideoChat.peers VideoChat.streams VideoChat.connections].
  split_and!; try done.
  change (VideoChat.on_event props ?v "user-left-video" payload)
    with (VideoChat.on_user_left_video v payload).
  unfold VideoChat.on_user_left_video, VideoChat.view_of. fold key.
  cbn [VideoChat.v_peers VideoChat.peers]. by rewrite lookup_delete_eq.
Qed.

End CallFacts.

(** ** The further properties on the worked examples *)

Import MoreExamples.

Ltac by_compute :=
  first [ vm_compute; reflexivity
        | eexists; vm_compute; reflexivity
        | let Hc := fresh in intros Hc; vm_compute in Hc; discriminate ].

(** [alice] on [c1] joins [lobby] and leaves it again. *)
Lemma join_then_leave_restores_witness :
  sids alice_identified !! "c1" = Some {["c1"]}
  ∧ (step (step alice_identified (Receive "c1" (JoinRoom "lobby"))).1
       (Receive "c1" (LeaveRoom "lobby"))).1 = alice_identified.
Proof.
  split; [by_compute|].
  apply (join_then_leave_restores alice_identified "c1" {["c1"]} "lobby" "alice");
    by_compute.
Defined.

(** [c1] joins [lobby] as [carol], says it is [dave] and disconnects. *)
Lemma rebound_identity_stays_present_witness :
  is_Some (sids alice_identified !! "c1")
  ∧ "carol" ∈ presence
      (run alice_identified (rebind_then_disconnect "c1" "carol" "lobby" "dave")) "lobby".
Proof.
  assert (is_Some (sids alice_identified !! "c1")) as Hlive by by_compute.
  split; [exact Hlive|].
  by destruct (rebound_identity_stays_present alice_identified "c1" "carol" "dave" "lobby"
                 Hlive) as (Hin & _).
Defined.

(** [alice] on [c1] leaves the lobby she shares with [bob] on [c2]. *)
Lemma leave_room_notifies_the_others_witness :
  bound_identity lobby_of_two "c1" = Some "alice"
  ∧ (let r := step lobby_of_two (Receive "c1" (LeaveRoom "lobby")) in
     delivered r.1 "c1" r.2 = []
     ∧ delivered r.1 "c2" r.2 = [Emit (ToRoom "lobby") "user_offline" (JString "alice")]).
Proof.
  assert (bound_identity lobby_of_two "c1" = Some "alice") as Hbound by by_compute.
  split; [exact Hbound|].
  destruct (leave_room_notifies_the_others lobby_of_two "c1" {["c1"; "lobby"]} "lobby" "alice")
    as (Hout & _ & _ & Hself & Hothers); [by_compute|exact Hbound|].
  cbv zeta. split; [exact Hself|]. rewrite (Hothers "c2"); [exact Hout|done|].
  eexists. split; by_compute.
Defined.

(** [alice] on [c1] joins [lobby]: she receives the snapshot when storage
    answers at once, and not when she has left the room by then. *)
Lemma join_room_takes_effect_before_snapshot_witness :
  bound_identity alice_identified "c1" = Some "alice"
  ∧ (let r := step alice_identified (Receive "c1" (JoinRoom "lobby")) in
     presence r.1 "lobby" = presence alice_identified "lobby" ∪ {["alice"]}
     ∧ r.2 = []
     ∧ delivered r.1 "c1" (step r.1 (RosterAnswer "lobby")).2
       = (step r.1 (RosterAnswer "lobby")).2
     ∧ (let s' := (step r.1 (Receive "c1" (LeaveRoom "lobby"))).1 in
        delivered s' "c1" (step s' (RosterAnswer "lobby")).2 = [])).
Proof.
  assert (bound_identity alice_identified "c1" = Some "alice") as Hbound by by_compute.
  split; [exact Hbound|].
  destruct (join_room_takes_effect_before_snapshot alice_identified
              "c1" {["c1"]} "lobby" "alice") as (Hpres & _ & _ & Hout & _ & Hself & Hleft);
    [by_compute|exact Hbound|].
  cbv zeta. split; [exact Hpres|]. split; [exact Hout|]. split; [exact Hself|].
  apply (Hleft (Receive "c1" (LeaveRoom "lobby"))). by left.
Defined.

(** [bob] joins [lobby] while the roster query of [alice]'s [join-room] is
    in flight: the snapshot of her [join-room] flags him online. *)
Lemma snapshot_is_roster_flagged_by_presence_witness :
  roomMember_findMany
    (db (run (step two_identified (Receive "c1" (JoinRoom "lobby"))).1 bob_joins_meanwhile))
    "lobby"
  = Some [Examples.member "lobby" "alice"; Examples.member "lobby" "bob"]
  ∧ ∃ payload entry,
      (step (run (step two_identified (Receive "c1" (JoinRoom "lobby"))).1
               bob_joins_meanwhile)
         (RosterAnswer "lobby")).2
      = [Emit (ToRoom "lobby") "room_members_update" payload]
      ∧ snapshot_items payload !! 1 = Some entry
      ∧ get_field "id" entry = JString "bob"
      ∧ get_field "online" entry = JBool true.
Proof.
  assert (roomMember_findMany
            (db (run (step two_identified (Receive "c1" (JoinRoom "lobby"))).1
                   bob_joins_meanwhile)) "lobby"
          = Some [Examples.member "lobby" "alice"; Examples.member "lobby" "bob"])
    as Hroster by by_compute.
  split; [exact Hroster|].
  destruct (snapshot_is_roster_flagged_by_presence two_identified "c1" "lobby"
              bob_joins_meanwhile _ Hroster)
    as (payload & Hout & _ & Hitems & _).
  destruct (Hitems 1 (Examples.member "lobby" "bob") eq_refl)
    as (entry & Hentry & Hid & Honline).
  exists payload, entry. split; [exact Hout|]. split; [exact Hentry|].
  split; [exact Hid|]. apply Honline. by_compute.
Defined.


(** [alice] on [c1] disconnects; the page behind [c2] shows her offline. *)
Lemma disconnect_marks_offline_on_every_page_witness :
  bound_identity lobby_of_two "c1" = Some "alice"
  ∧ Page.receive_all
      (delivered (step lobby_of_two (Disconnect "c1")).1 "c2"
         (step lobby_of_two (Disconnect "c1")).2) lobby_page
    = Some (Page.on_user_offline (JString "alice") lobby_page).
Proof.
  assert (bound_identity lobby_of_two "c1" = Some "alice") as Hbound by by_compute.
  split; [exact Hbound|].
  destruct (disconnect_marks_offline_on_every_page lobby_of_two "c1" "alice" "c2" lobby_page)
    as (page' & Hreceived & -> & _); [by_compute|exact Hbound|done|by_compute|].
  exact Hreceived.
Defined.

(** [alice] says [hi] in [lobby]; the page behind [c2] appends the record. *)
Lemma stored_message_reaches_the_pages_of_the_room_witness :
  is_Some (sids lobby_of_two !! "c1")
  ∧ (let r := step lobby_of_two (Receive "c1" (SendMessage hello)) in
     Page.messages <$> Page.receive_all (delivered r.1 "c2" r.2) lobby_page
     = Some (Page.messages lobby_page
             ++ [[("id", JString "msg-0"); ("content", JString "hi");
                  ("type", JString "text"); ("imageUrl", JNull);
                  ("roomId", JString "lobby"); ("userId", JString "alice");
                  ("createdAt", JString "t0"); ("isEdited", JBool false);
                  ("isDeleted", JBool false)]])).
Proof.
  assert (is_Some (sids lobby_of_two !! "c1")) as Hlive by by_compute.
  split; [exact Hlive|].
  pose proof (stored_message_reaches_the_pages_of_the_room lobby_of_two "c1" hello
                lobby_page Hlive) as Hsend.
  cbv zeta in Hsend.
  change (message_create (db lobby_of_two) _)
    with (Some (mem_record 0 {| mc_content := "hi"; mc_type := "text";
                                mc_imageUrl := None; mc_roomId := "lobby";
                                mc_userId := "alice" |},
                {| md_members := md_members db_lobby;
                   md_messages := [mem_record 0 {| mc_content := "hi"; mc_type := "text";
                                                   mc_imageUrl := None;
                                                   mc_roomId := "lobby";
                                                   mc_userId := "alice" |}];
                   md_up := true |})) in Hsend.
  destruct (Hsend _ eq_refl) as [Hin _]. cbv zeta.
  rewrite (Hin "c2"); [done|]. eexists. split; by_compute.
Defined.

(** [c9] never identified and is in no room; it announces an edit of
    [msg-0] to [lobby], and the page behind [c2] shows it. *)
Lemma notifications_relayed_unchecked_witness :
  is_Some (sids anonymous !! "c9")
  ∧ bound_identity anonymous "c9" = None
  ∧ (let u := step anonymous (Receive "c9" (MessageUpdated "lobby" "msg-0" "bye")) in
     Page.messages <$> Page.receive_all (delivered u.1 "c2" u.2) lobby_page
     = Some [[("id", JString "msg-0"); ("content", JString "bye");
              ("isEdited", JBool true); ("isDeleted", JBool false)]]).
Proof.
  assert (is_Some (sids anonymous !! "c9")) as Hlive by by_compute.
  split; [exact Hlive|]. split; [by_compute|].
  destruct (notifications_relayed_unchecked anonymous "c9" "lobby" "msg-0" "bye" lobby_page
              Hlive) as (_ & _ & Hin & _).
  cbv zeta. destruct (Hin "c2") as [Hupdated _].
  - eexists. split; by_compute.
  - rewrite Hupdated. vm_compute. reflexivity.
Defined.


(** [alice] switches from [lobby] to [den]. *)
Lemma switching_rooms_moves_presence_witness :
  bound_identity lobby_of_two "c1" = Some "alice"
  ∧ Page.currentRoom lobby_page = Some "lobby"
  ∧ (let s' := run lobby_of_two
                 (Receive "c1" <$> (Page.handleJoinRoom true "den" lobby_page).2) in
     "alice" ∈ presence s' "den" ∧ "alice" ∉ presence s' "lobby").
Proof.
  assert (bound_identity lobby_of_two "c1" = Some "alice") as Hbound by by_compute.
  split; [exact Hbound|]. split; [done|].
  destruct (switching_rooms_moves_presence lobby_of_two "c1" {["c1"; "lobby"]} "alice"
              "lobby" "den" lobby_page)
    as (_ & _ & Hin & _ & Hold & _); [by_compute|exact Hbound|done|done|].
  cbv zeta. split; [exact Hin|]. by destruct Hold.
Defined.

Lemma roster_db_unique : MembersRoute.unique_membership (DB := RosterDb).
Proof.
  intros d userId roomId room d'. simpl.
  destruct (List.find (is_room roomId) (rd_rooms d)) as [found|]; [|done].
  intros [= _ <-]. simpl.
  destruct (List.find (is_row userId roomId) (rd_rows d ++ [Examples.member roomId userId]))
    as [member|] eqn:Hfind; [by exists member|].
  assert (is_row userId roomId (Examples.member roomId userId) = false) as Hrow.
  { apply (find_none _ _ Hfind). apply in_or_app. right. by left. }
  unfold is_row in Hrow. simpl in Hrow. apply bool_decide_eq_false in Hrow.
  by destruct Hrow.
Qed.

(** [bob] joins [lobby] durably, twice. *)
Lemma post_twice_is_rejected_witness :
  MembersRoute.status (MembersRoute.POST (Some (Some "bob")) "lobby" lobby_roster).1 = 201
  ∧ MembersRoute.status
      (MembersRoute.POST (Some (Some "bob")) "lobby"
         (MembersRoute.POST (Some (Some "bob")) "lobby" lobby_roster).2).1 = 400.
Proof.
  assert (MembersRoute.status
            (MembersRoute.POST (Some (Some "bob")) "lobby" lobby_roster).1 = 201) as Hfirst
    by by_compute.
  split; [exact Hfirst|].
  by rewrite (post_twice_is_rejected (Some (Some "bob")) "lobby" lobby_roster
                roster_db_unique Hfirst).
Defined.

(** [carol] opens the call for the first time; [bob] joins. *)
Lemma no_offer_before_local_stream_witness :
  VideoChat.v_localStream (VideoChat.view_of VideoChat.initial) = None
  ∧ (VideoChat.on_event (browser := microphone_only) carol
       (VideoChat.view_of VideoChat.initial) "user-joined-video" from_bob
       VideoChat.initial).1.2 = [].
Proof.
  split; [done|].
  by destruct (no_offer_before_local_stream (browser := microphone_only) carol
                 (VideoChat.view_of VideoChat.initial) from_bob VideoChat.initial
                 eq_refl eq_refl) as (_ & Hsent & _).
Defined.

(** [bob] leaves the call [carol] has a link to him in. *)
Lemma user_left_video_tears_down_witness :
  VideoChat.v_peers (VideoChat.view_of linked_to_bob) !! "bob" = Some 0
  ∧ VideoChat.peers
      (VideoChat.on_event (browser := microphone_only) carol
         (VideoChat.view_of linked_to_bob) "user-left-video" from_bob linked_to_bob).1.1
    = ∅.
Proof.
  split; [by_compute|].
  destruct (user_left_video_tears_down (browser := microphone_only) carol
              (VideoChat.view_of linked_to_bob) from_bob linked_to_bob 0
              {| VideoChat.pc_peer := JString "bob"; VideoChat.pc_tracks := None;
                 VideoChat.pc_local := None; VideoChat.pc_remote := None;
                 VideoChat.pc_candidates := []; VideoChat.pc_closed := false |})
    as (_ & _ & _ & Hpeers & _); [by_compute|by_compute|].
  rewrite Hpeers. by_compute.
Defined.
